(** * node-prince: install-time integration (prince-npm.js)

    A shallow embedding of [prince-npm.js], the script that npm runs on
    [install] and [uninstall] of the package: the resolver of the PrinceXML
    download URL, the proxy selection of the downloader, the three unpacking
    paths and the removal of the unpacked distribution.

    Every call that leaves the script (child processes, the file system, the
    network, the console) is a node of a program tree; what the outside world
    answers is the argument of the node's continuation.  A property of every
    path quantifies over these answers; a property of the state of the disk
    is settled on a small model of the file system. *)

From Stdlib Require Import Ascii String NArith List Bool Lia.
From Stdlib Require Import DecimalString.
From stdpp Require Import base option strings list gmap.

Open Scope string_scope.

(** ** JavaScript strings

    A character is a code unit below 256, which covers what [shtool],
    [npm config get] and a version string print. *)

Module Js.

Definition code (c : ascii) : N := N_of_ascii c.

Definition in_range (lo hi c : ascii) : bool :=
  (code lo <=? code c)%N && (code c <=? code hi)%N.

(** [String.prototype.toLowerCase] on the code units below 256: A-Z and the
    Latin-1 capitals (all of U+00C0..U+00DE but the multiplication sign). *)
Definition lower_char (c : ascii) : ascii :=
  if in_range "A" "Z" c
     || (in_range "192" "222" c && negb (code c =? 215)%N)
  then ascii_of_N (code c + 32) else c.

Definition upper_char (c : ascii) : ascii :=
  if in_range "a" "z" c
     || (in_range "224" "254" c && negb (code c =? 247)%N)
  then ascii_of_N (code c - 32) else c.

Fixpoint toLowerCase (s : string) : string :=
  match s with
  | EmptyString => EmptyString
  | String c s' => String (lower_char c) (toLowerCase s')
  end.

(** Line terminators below 256: LF and CR. *)
Definition line_terminator (c : ascii) : bool :=
  (code c =? 10)%N || (code c =? 13)%N.

Fixpoint take (n : nat) (s : string) : string :=
  match n, s with
  | S n', String c s' => String c (take n' s')
  | _, _ => EmptyString
  end.

Fixpoint drop (n : nat) (s : string) : string :=
  match n, s with
  | S n', String _ s' => drop n' s'
  | _, _ => s
  end.

(** A template literal prints a number in decimal. *)
Definition show_N (n : N) : string := NilEmpty.string_of_uint (N.to_uint n).

(** ... and an undefined value as the word. *)
Definition show (v : option string) : string := default "undefined" v.

End Js.

(** ** Regular expressions

    The fragment of ECMAScript patterns that the script uses: characters,
    [.], classes of ranges, [^] and [$], capturing groups and greedy
    quantifiers.  The matcher is the backtracking matcher of the language
    definition, written with continuations: a quantifier first tries one
    more round and falls back to the continuation. *)

Module RegExp.

Inductive regex : Type :=
| Chr (c : ascii)
| Dot
| Class (ranges : list (ascii * ascii))
| Bol
| Eol
| Seq (r1 r2 : regex)
| Group (i : nat) (r : regex)
| Rep (min : nat) (max : option nat) (r : regex).

Definition Star := Rep 0 None.
Definition Plus := Rep 1 None.
Definition Opt := Rep 0 (Some 1).
Definition digit := Class [("0", "9")]%char.

Fixpoint seq (rs : list regex) : regex :=
  match rs with
  | [] => Rep 0 (Some 0) Dot
  | [r] => r
  | r :: rs' => Seq r (seq rs')
  end.

Definition lit (s : string) : regex :=
  seq (map Chr (list_ascii_of_string s)).

(** Where the matcher is: the index in the input, what is left of the input
    and the captures so far (the latest first). *)
Record mstate : Type := MState {
  idx : nat;
  rest : string;
  caps : list (nat * string)
}.

Definition in_ranges (ranges : list (ascii * ascii)) (c : ascii) : bool :=
  existsb (fun r => Js.in_range (fst r) (snd r) c) ranges.

(** With the flag [i] two characters are the same when their upper cases
    are. *)
Definition chr_matches (icase : bool) (p c : ascii) : bool :=
  if icase then Ascii.eqb (Js.upper_char p) (Js.upper_char c)
  else Ascii.eqb p c.

Definition class_matches (icase : bool) (ranges : list (ascii * ascii))
    (c : ascii) : bool :=
  in_ranges ranges c
  || (icase && (in_ranges ranges (Js.upper_char c)
                || in_ranges ranges (Js.lower_char c))).

Definition step_char (ok : ascii -> bool) (x : mstate)
    (c : mstate -> option mstate) : option mstate :=
  match rest x with
  | String a s =>
      if ok a then c (MState (S (idx x)) s (caps x)) else None
  | EmptyString => None
  end.

(** The rounds of a quantifier over the matcher [m] of its body, the greedy
    way: one more round first, the continuation [c] when that fails.  A
    round that consumes nothing once the minimum is reached is refused, so a
    round past the minimum consumes a character: [min] rounds and one per
    character left are all there can be, which is what [fuel] starts at. *)
Fixpoint rounds (m : mstate -> (mstate -> option mstate) -> option mstate)
    (fuel min : nat) (max : option nat) (x : mstate)
    (c : mstate -> option mstate) {struct fuel} : option mstate :=
  match max, fuel with
  | Some 0, _ => c x
  | _, 0 => c x
  | _, S fuel' =>
      let d := fun y =>
        if Nat.eqb min 0 && Nat.eqb (idx y) (idx x) then None
        else rounds m fuel' (Nat.pred min) (Nat.pred <$> max) y c in
      if Nat.eqb min 0 then
        match m x d with
        | Some z => Some z
        | None => c x
        end
      else m x d
  end.

Fixpoint matcher (icase : bool) (r : regex) (x : mstate)
    (c : mstate -> option mstate) {struct r} : option mstate :=
  match r with
  | Chr p => step_char (chr_matches icase p) x c
  | Dot => step_char (fun a => negb (Js.line_terminator a)) x c
  | Class ranges => step_char (class_matches icase ranges) x c
  | Bol => if Nat.eqb (idx x) 0 then c x else None
  | Eol => match rest x with EmptyString => c x | String _ _ => None end
  | Seq r1 r2 => matcher icase r1 x (fun y => matcher icase r2 y c)
  | Group i r1 =>
      matcher icase r1 x (fun y =>
        c (MState (idx y) (rest y)
             ((i, Js.take (idx y - idx x) (rest x)) :: caps y)))
  | Rep min max r1 =>
      rounds (matcher icase r1) (min + String.length (rest x)) min max x c
  end.

(** The outcome of a match: where it starts, what it covers and the
    captures. *)
Record result : Type := Result {
  index : nat;
  matched : string;
  groups : list (nat * string)
}.

(** The capture of group [i]; [None] is JavaScript's [undefined]. *)
Definition group (i : nat) (m : result) : option string :=
  snd <$> List.find (fun p => Nat.eqb (fst p) i) (groups m).

(** [RegExp.prototype.exec] without the flag [g] (also [String.match]): the
    leftmost start at which the pattern matches. *)
Fixpoint exec_from (icase : bool) (r : regex) (i : nat) (s : string)
    : option result :=
  match matcher icase r (MState i s []) Some with
  | Some y => Some (Result i (Js.take (idx y - i) s) (caps y))
  | None =>
      match s with
      | String _ s' => exec_from icase r (S i) s'
      | EmptyString => None
      end
  end.

Definition exec (icase : bool) (r : regex) (s : string) : option result :=
  exec_from icase r 0 s.

Definition test (icase : bool) (r : regex) (s : string) : bool :=
  match exec icase r s with Some _ => true | None => false end.

(** [String.prototype.replace] with a pattern without the flag [g] and a
    replacement without [$]: the first match is replaced. *)
Definition replace (icase : bool) (r : regex) (by_ : string) (s : string)
    : string :=
  match exec icase r s with
  | Some m =>
      Js.take (index m) s ++ by_
        ++ Js.drop (index m + String.length (matched m)) s
  | None => s
  end.

End RegExp.

Import RegExp.

(** *** The patterns of the script *)

(** The pattern of [getLinuxOSInfo], built with the flag [i]: group 1 is
    [[a-zA-Z0-9]] and then any run of [.]; a [-] follows (the backslash
    before it is dropped by the string literal); group 2 is
    [[a-zA-Z]{1,10}]; group 3 is [[0-9]{1,5}.[0-9]{1,5}.?[0-9]{1,5}]. *)
Definition osRegex : regex :=
  seq [ Group 1 (Seq (Class [("a","z"); ("A","Z"); ("0","9")]%char) (Star Dot));
        Chr "-";
        Group 2 (Rep 1 (Some 10) (Class [("a","z"); ("A","Z")]%char));
        Group 3 (seq [ Rep 1 (Some 5) digit; Dot; Rep 1 (Some 5) digit;
                       Opt Dot; Rep 1 (Some 5) digit ]) ].

(** The shape of every version test: [^], the leading number [major], any
    number of groups of a dot and one or more digits, [$]. *)
Definition version_re (major : regex) : regex :=
  seq [ Bol; major; Star (Seq (Chr ".") (Plus digit)); Eol ].

(** The tests of the Ubuntu, Debian and CentOS branches: the leading number
    is [1[45]], [1[67]], [1[89]], [2[01]], [10], [9], [8], [7] or [6]. *)
Definition re_ubuntu_14_15 :=
  version_re (Seq (Chr "1") (Class [("4", "5")]%char)).
Definition re_ubuntu_16_17 :=
  version_re (Seq (Chr "1") (Class [("6", "7")]%char)).
Definition re_ubuntu_18_19 :=
  version_re (Seq (Chr "1") (Class [("8", "9")]%char)).
Definition re_ubuntu_20_21 :=
  version_re (Seq (Chr "2") (Class [("0", "1")]%char)).
Definition re_10 := version_re (lit "10").
Definition re_9 := version_re (lit "9").
Definition re_8 := version_re (lit "8").
Definition re_7 := version_re (lit "7").
Definition re_6 := version_re (lit "6").

(** [/^Prince\s+(\d+(?:\.\d+)?)/]; white space below 256 is TAB, LF, VT, FF,
    CR, space and the no-break space. *)
Definition white_space : regex :=
  Class [("009","013"); (" "," "); ("160","160")]%char.
Definition re_banner : regex :=
  seq [ Bol; lit "Prince"; Plus white_space;
        Group 1 (Seq (Plus digit) (Opt (Seq (Chr ".") (Plus digit)))) ].

(** [/\r?\n$/] *)
Definition re_eol : regex := seq [ Opt (Chr "013"); Chr "010"; Eol ].

(** [/^https?:\/\/.+/] *)
Definition re_proxy : regex :=
  seq [ Bol; lit "http"; Opt (Chr "s"); lit "://"; Plus Dot ].

(** ** Values that cross the border of the script *)

(** What is thrown or passed to a [reject]: an error object with its name
    and message, or (as [princeInfo] and [downloadData] do) a bare string. *)
Inductive error : Type :=
| Err (name message : string)
| Str (s : string).

(** An error object prints as its name, a colon and its message. *)
Definition show_error (e : error) : string :=
  match e with
  | Err name message => name ++ ": " ++ message
  | Str s => s
  end.

(** String concatenation with a value that may be [null]. *)
Definition show_nullable (e : option error) : string :=
  match e with Some e => show_error e | None => "null" end.

Definition quote : string := String "034" EmptyString.

(** A path is the list of its segments; [path.join] appends segments. *)
Definition path : Type := list string.

Definition path_join (p : path) (segments : list string) : path :=
  (p ++ segments)%list.

Fixpoint show_path (p : path) : string :=
  match p with
  | [] => EmptyString
  | [x] => x
  | x :: p' => x ++ "/" ++ show_path p'
  end.

(** What a file holds: its bytes and, when the bytes are an archive, the
    entries they unpack to (paths inside the archive; [None] is a directory,
    [Some] a file with its mode bits and bytes). *)
Inductive format : Type := zip | tgz.

#[global] Instance format_eq_dec : EqDecision format.
Proof. solve_decision. Defined.

Definition entries : Type := list (path * option (N * string)).

Record payload : Type := Payload {
  bytes : string;
  unpacks : option (format * entries)
}.

(** The ambient values of the process. *)
Record process : Type := Process {
  platform : string;            (* process.platform *)
  arch : string;                (* process.arch *)
  http_proxy : option string;   (* process.env.http_proxy, when a string *)
  argv : list string;           (* process.argv *)
  dirname : path                (* __dirname *)
}.

(** ** Calls and programs *)

(** An [error] event in a pipeline of streams.  The script listens on the
    last stream of a pipeline and on no other: the error is [Heard] when the
    last stream emits it ([unzip.Extract], [tar.extract]) and [Unheard] when
    a stream before it does (the read stream of the file, [zlib]'s gunzip). *)
Inductive stream_error : Type :=
| Heard (e : error)
| Unheard (e : error).

(** The calls of the script to the world outside, each with the type of what
    comes back: the arguments of the callback, the returned value, or the
    error of a call that throws.  The last one is no call of the script: it
    is the event of a promise that is rejected and has no handler, and what
    comes back is whether the runtime ends the process there (the default
    from Node 15 on) or warns and goes on (Node 14); the package allows
    both. *)
Inductive call : Type -> Type :=
| which (cmd : string) : call (error + string)
| child_process_execFile (file : string) (args : list string)
    : call (option error * string * string)
| child_process_exec (cmd : string) : call (option error * string)
| console_log (msg : string) : call unit
| request (url : string) (proxy : option string)
    : call (option error * N * payload)
| fs_writeFileSync (file : path) (data : payload) : call (option error)
| fs_writeFile (file : path) (data : payload) : call (option error)
| fs_unlinkSync (file : path) : call (option error)
| fs_mkdtemp (prefix : path) : call (error + path)
| fs_rmdir (dir : option path) : call (option error)
| fs_readdir (dir : path) : call (error + list string)
| fs_stat (file : path) : call (error + bool)
| fs_rename (source dest : path) : call (option error)
| fs_chmodSync (file : path) (mode : N) : call (option error)
| fs_existsSync (file : path) : call bool
| unzip_Extract (file dest : path) : call (option stream_error)
| tar_extract (file cwd : path) (strip : nat) : call (option stream_error)
| mkdirp_sync (dir : path) : call (option error)
| rimraf (dir : path) : call (option error)
| unhandledRejection (reason : error) : call bool.

Inductive prog (A : Type) : Type :=
| Ret (a : A)
| Vis {X : Type} (c : call X) (k : X -> prog A).

Arguments Ret {A} a.
Arguments Vis {A X} c k.

Fixpoint bind {A B : Type} (p : prog A) (f : A -> prog B) : prog B :=
  match p with
  | Ret a => f a
  | Vis c k => Vis c (fun x => bind (k x) f)
  end.

Definition do {X : Type} (c : call X) : prog X := Vis c Ret.

Notation "'let*' x ':=' p 'in' q" := (bind p (fun x => q))
  (at level 10, x pattern, p at level 200, q at level 200, only parsing).
Notation "p ;;; q" := (bind p (fun _ => q))
  (at level 100, q at level 200, right associativity, only parsing).

(** A call with the answer it got. *)
Inductive event : Type :=
| Event {X : Type} (c : call X) (x : X).

(** Running a program against a world [W] that answers the calls. *)
Section Run.
Context {W : Type} (answer : forall X, call X -> W -> X * W).

Fixpoint run {A : Type} (p : prog A) (w : W) : A * W :=
  match p with
  | Ret a => (a, w)
  | Vis c k => let '(x, w') := answer _ c w in run (k x) w'
  end.
End Run.

(** Running it against fixed answers, and the calls made on the way. *)
Section Eval.
Variable answers : forall X, call X -> X.

Fixpoint eval {A : Type} (p : prog A) : A :=
  match p with
  | Ret a => a
  | Vis c k => eval (k (answers _ c))
  end.

Fixpoint trace {A : Type} (p : prog A) : list event :=
  match p with
  | Ret _ => []
  | Vis c k => Event c (answers _ c) :: trace (k (answers _ c))
  end.
End Eval.


(** What a trace holds of one kind of call. *)
Definition calls_of {B : Type} (f : forall X, call X -> X -> option B)
    (t : list event) : list B :=
  omap (fun e => match e with Event c x => f _ c x end) t.

Definition execs : list event -> list string :=
  calls_of (fun X c _ =>
    match c with child_process_exec cmd => Some cmd | _ => None end).

Definition requests : list event -> list (string * option string) :=
  calls_of (fun X c _ =>
    match c with request url proxy => Some (url, proxy) | _ => None end).

Definition chmods : list event -> list (path * N * option error) :=
  calls_of (fun X c =>
    match c in call X return X -> option (path * N * option error) with
    | fs_chmodSync file mode => fun x => Some (file, mode, x)
    | _ => fun _ => None
    end).

Definition renames : list event -> list (path * path * option error) :=
  calls_of (fun X c =>
    match c in call X return X -> option (path * path * option error) with
    | fs_rename source dest => fun x => Some (source, dest, x)
    | _ => fun _ => None
    end).

Definition rmdirs : list event -> list (option path * option error) :=
  calls_of (fun X c =>
    match c in call X return X -> option (option path * option error) with
    | fs_rmdir dir => fun x => Some (dir, x)
    | _ => fun _ => None
    end).


(** ** Promises *)

Inductive settle (A : Type) : Type :=
| Pending
| Fulfilled (v : A)
| Rejected (e : error).

Arguments Pending {A}.
Arguments Fulfilled {A} v.
Arguments Rejected {A} e.

(** [resolve] and [reject] settle a pending promise and do nothing to a
    settled one. *)
Definition resolve {A : Type} (v : A) (p : settle A) : settle A :=
  match p with Pending => Fulfilled v | _ => p end.

Definition reject {A : Type} (e : error) (p : settle A) : settle A :=
  match p with Pending => Rejected e | _ => p end.

(** What a function that returns a promise leaves behind: the state the
    promise ends in, and the exception that escaped on the way, if one did
    (thrown out of a callback, or out of an async function whose own promise
    nobody looks at). *)
Record async (A : Type) : Type := Async {
  promise : settle A;
  escaped : option error
}.

Arguments Async {A} promise escaped.
Arguments promise {A} a.
Arguments escaped {A} a.

(** ** The resolver of the download URL *)

Definition PRINCE_VERSION : N := 14.

Definition download (name : string) : string :=
  "https://www.princexml.com/download/prince-" ++ Js.show_N PRINCE_VERSION
    ++ name.

(** *** princeInfo *)

Record prince_info : Type := PrinceInfo {
  command : string;
  version : string
}.

(** The promise is settled on every branch, each of which returns. *)
Definition princeInfo : prog (settle prince_info) :=
  let* found := do (which "prince") in
  match found with
  | inl error =>
      Ret (Rejected (Str ("prince(1) not found in PATH: " ++ show_error error)))
  | inr filename =>
      let* (error, stdout, stderr) :=
        do (child_process_execFile filename ["--version"]) in
      match error with
      | Some e =>
          Ret (Rejected (Str ("prince(1) failed on " ++ quote ++ "--version"
                                ++ quote ++ ": " ++ show_error e)))
      | None =>
          match exec false re_banner stdout ≫= group 1 with
          | Some version =>
              Ret (Fulfilled (PrinceInfo filename version))
          | None =>
              Ret (Rejected (Str ("prince(1) returned unexpected output on "
                                    ++ quote ++ "--version" ++ quote ++ ":"
                                    ++ String "010" (stdout ++ stderr))))
          end
      end
  end.

(** *** getLinuxOSInfo *)

Record os_info : Type := OsInfo {
  osCPUArch : option string;
  osName : option string;
  osVersion : option string
}.

Definition shtool_command (P : process) : string :=
  "sh " ++ quote ++ show_path (path_join (dirname P) ["shtool"]) ++ quote
    ++ " platform -t binary".

(** Destructuring [null] throws this out of the callback of [exec]. *)
Definition not_iterable : error :=
  Err "TypeError" "object null is not iterable".

(** The callback of [exec]: it rejects on an error and goes on all the
    same; the match is destructured without a look at whether there is
    one. *)
Definition osInfoCallback (error : option error) (stdout : string)
    : async os_info :=
  let p := match error with Some e => reject e Pending | None => Pending end in
  match exec true osRegex (Js.toLowerCase stdout) with
  | None => Async p (Some not_iterable)
  | Some m =>
      Async (resolve (OsInfo (group 1 m) (group 2 m) (group 3 m)) p) None
  end.

Definition getLinuxOSInfo (P : process) : prog (async os_info) :=
  let* (error, stdout) := do (child_process_exec (shtool_command P)) in
  Ret (osInfoCallback error stdout).

(** *** princeDownloadURL

    The executor of the returned promise is an async function that takes
    [resolve] only: what it throws rejects its own promise, which nobody
    holds, and leaves the returned promise as it is. *)
Definition resolved (url : string) : async string := Async (Fulfilled url) None.
Definition thrown (e : error) : async string := Async Pending (Some e).
Definition idle : async string := Async Pending None.

(** [await]: an exception that escaped from the callback ends the process;
    a rejection is thrown where the executor waits; a promise that stays
    pending is waited for without end. *)
Definition await {A : Type} (a : async A) (k : A -> async string)
    : async string :=
  match escaped a with
  | Some e => Async Pending (Some e)
  | None =>
      match promise a with
      | Fulfilled v => k v
      | Rejected e => thrown e
      | Pending => idle
      end
  end.

Definition unsupported_architecture (a : string) : error :=
  Err "Error" ("Unsupported architecture: " ++ quote ++ a ++ quote).

Definition unknown_os_version (v : option string) : error :=
  Err "Error" ("Unknown os version: " ++ Js.show v).

(** Reading a [const] of the block of [case "linux"] outside that block. *)
Definition not_defined (x : string) : error :=
  Err "ReferenceError" (x ++ " is not defined").

Definition js_test (r : regex) (v : option string) : bool :=
  test false r (Js.show v).

(** The arms of [switch (osName)], which has the single case ['ubuntu'] and
    no default. *)
Definition linux_arms (info : os_info) : async string :=
  if bool_decide (osName info = Some "ubuntu") then
    if bool_decide (osCPUArch info = Some "amd64") then
      if js_test re_ubuntu_14_15 (osVersion info) then
        resolved (download "-ubuntu14.04-amd64.tar.gz")
      else if js_test re_ubuntu_16_17 (osVersion info) then
        resolved (download "-ubuntu16.04-amd64.tar.gz")
      else if js_test re_ubuntu_18_19 (osVersion info) then
        resolved (download "-ubuntu18.04-amd64.tar.gz")
      else if js_test re_ubuntu_20_21 (osVersion info) then
        resolved (download "-ubuntu20.04-amd64.tar.gz")
      else thrown (unknown_os_version (osVersion info))
    else if bool_decide (osCPUArch info = Some "ix86") then
      if js_test re_ubuntu_14_15 (osVersion info) then
        resolved (download "-ubuntu14.04-i386.tar.gz")
      else if js_test re_ubuntu_16_17 (osVersion info) then
        resolved (download "-ubuntu16.04-i386.tar.gz")
      else if js_test re_ubuntu_18_19 (osVersion info) then
        resolved (download "-ubuntu18.04-i386.tar.gz")
      else thrown (unknown_os_version (osVersion info))
    else
      thrown (unsupported_architecture (Js.show (osCPUArch info)))
  else idle.

(** [switch (platform)].  The cases ['debian'], ['centos'] and ['alpine']
    stand after the closing brace of [case "linux"], so they are cases of
    this switch, on [process.platform]; each starts with
    [switch (osCPUArch)], a name that is not in scope there. *)
Definition princeDownloadURL (P : process) : prog (async string) :=
  if String.eqb (platform P) "wind32" then
    if String.eqb (arch P) "x64" then
      Ret (resolved (download "-win64-setup.exe"))
    else if String.eqb (arch P) "ia32" || String.eqb (arch P) "x32" then
      Ret (resolved (download "-win32-setup.exe"))
    else
      Ret (thrown (Err "Error" ("Unsupported architecture: " ++ arch P)))
  else if String.eqb (platform P) "darwin" then
    let* osInfo := getLinuxOSInfo P in
    Ret (await osInfo (fun _ => resolved (download "-macos.zip")))
  else if String.eqb (platform P) "linux" then
    let* osInfo := getLinuxOSInfo P in
    Ret (await osInfo linux_arms)
  else if String.eqb (platform P) "debian" then
    Ret (thrown (not_defined "osCPUArch"))
  else if String.eqb (platform P) "centos" then
    Ret (thrown (not_defined "osCPUArch"))
  else if String.eqb (platform P) "alpine" then
    Ret (thrown (not_defined "osCPUArch"))
  else
    Ret (thrown (Err "Error" ("Unsupported platform: " ++ quote
                                ++ platform P ++ quote))).

(** ** The downloader *)

(** The inner promise of [downloadData]: what [options.proxy] is when it
    resolves ([None]: the field is not set). *)
Definition options_proxy (P : process) : prog (option string) :=
  let npm :=
    let* (error, stdout) := do (child_process_exec "npm config get proxy") in
    match error with
    | None =>
        let stdout := replace false re_eol EmptyString stdout in
        if test false re_proxy stdout then
          do (console_log
                ("-- using proxy (npm config get proxy): " ++ stdout)) ;;;
          Ret (Some stdout)
        else Ret None
    | Some _ => Ret None
    end in
  match http_proxy P with
  | Some proxy =>
      if negb (String.eqb proxy EmptyString) then
        do (console_log ("-- using proxy ($http_proxy): " ++ proxy)) ;;;
        Ret (Some proxy)
      else npm
  | None => npm
  end.

Definition downloadData (P : process) (url : string) : prog (settle payload) :=
  let* proxy := options_proxy P in
  do (console_log ("-- download: " ++ url)) ;;;
  let* (error, statusCode, body) := do (request url proxy) in
  if bool_decide (error = None) && (statusCode =? 200)%N then
    do (console_log ("-- download: "
                       ++ Js.show_N (N.of_nat (String.length (bytes body)))
                       ++ " bytes received.")) ;;;
    Ret (Fulfilled body)
  else Ret (Rejected (Str ("download failed: " ++ show_nullable error))).

(** ** Unpacking *)

(** What is raised: an exception that a [catch] or the callback of a
    rejection can take, or one that nothing takes, which ends the process
    where it is raised: the [error] event of a stream without a listener,
    and a rejection without a handler that the runtime makes fatal. *)
Inductive raised : Type :=
| Thrown (e : error)
| Uncaught (e : error).

Definition exception (r : raised) : error :=
  match r with Thrown e | Uncaught e => e end.

(** Code that can throw: the program ends in what was raised or in a
    value. *)
Definition throws (A : Type) : Type := prog (raised + A).

Definition ret {A : Type} (a : A) : throws A := Ret (inr a).
Definition throw {A : Type} (e : error) : throws A := Ret (inl (Thrown e)).
Definition uncaught {A : Type} (e : error) : throws A :=
  Ret (inl (Uncaught e)).

Definition bind_throws {A B : Type} (p : throws A) (f : A -> throws B)
    : throws B :=
  let* r := p in
  match r with
  | inl e => Ret (inl e)
  | inr a => f a
  end.

Notation "'let!' x ':=' p 'in' q" := (bind_throws p (fun x => q))
  (at level 10, x pattern, p at level 200, q at level 200, only parsing).
Notation "p ;;! q" := (bind_throws p (fun _ => q))
  (at level 100, q at level 200, right associativity, only parsing).

(** [try { p } catch (error) { h error }]: the handler takes what is thrown
    and not what ends the process. *)
Definition try_catch {A : Type} (p : throws A) (h : error -> throws A)
    : throws A :=
  let* r := p in
  match r with
  | inl (Thrown e) => h e
  | inl (Uncaught e) => uncaught e
  | inr a => ret a
  end.

(** A call that throws its error, or whose promise is awaited and rejects
    with it. *)
Definition checked (c : call (option error)) : throws unit :=
  let* r := do c in
  match r with
  | Some e => throw e
  | None => ret tt
  end.

(** A call that throws its error in a plain callback, with no [try] and no
    promise around it. *)
Definition unguarded (c : call (option error)) : throws unit :=
  let* r := do c in
  match r with
  | Some e => uncaught e
  | None => ret tt
  end.

(** A call whose callback rejects the promise with its error or resolves it
    with its value, the promise being returned and awaited. *)
Definition awaited {A : Type} (c : call (error + A)) : throws A :=
  let* r := do c in
  match r with
  | inl e => throw e
  | inr a => ret a
  end.

(** A pipeline of streams under a promise that is awaited: [close]
    resolves it, an [error] of the last stream rejects it, and an [error]
    of a stream before it, which has no listener, is an exception that
    nothing takes. *)
Definition piped (c : call (option stream_error)) : throws unit :=
  let* r := do c in
  match r with
  | None => ret tt
  | Some (Heard e) => throw e
  | Some (Unheard e) => uncaught e
  end.

Definition log (msg : string) : throws unit :=
  do (console_log msg) ;;; ret tt.

(** The promise of the write is not returned: the caller waits for nothing.
    An error of the write rejects a promise that has no handler; where the
    runtime makes that fatal the process ends, elsewhere the script goes
    on.  The callbacks are taken in the order of the calls: the write is
    over before what follows it. *)
Definition saveFileToDisk (file : path) (data : payload) : throws unit :=
  let* err := do (fs_writeFile file data) in
  match err with
  | None => ret tt
  | Some e =>
      let* fatal := do (unhandledRejection e) in
      if fatal then uncaught e else ret tt
  end.

(** The argument is not used. *)
Definition createTmpDir (P : process) (pathDir : path) : throws path :=
  awaited (fs_mkdtemp (path_join (dirname P) ["tmp-"])).

(** [pathToTmp] may be [undefined]. *)
Definition removeTmpDir (pathToTmp : option path) : throws unit :=
  checked (fs_rmdir pathToTmp).

(** The read stream of the archive is piped into [unzip.Extract], and the
    listener for [error] is on the latter. *)
Definition unzipArchive (pathToFile destdir : path) : throws unit :=
  piped (unzip_Extract pathToFile destdir).

Definition readDir (dir : path) : throws (list string) :=
  awaited (fs_readdir dir).

Definition readFileStat (pathToFile : path) : throws bool :=
  awaited (fs_stat pathToFile).

Definition moveFiles (source dest : path) : throws unit :=
  checked (fs_rename source dest).

Definition mode_755 : N := 493.

Definition makePrinceExecutable (dirPath : path) : throws unit :=
  checked (fs_chmodSync
             (path_join dirPath ["lib"; "prince"; "bin"; "prince"])
             mode_755) ;;!
  checked (fs_chmodSync
             (path_join dirPath ["lib"; "prince"; "bin"; "princedebug"])
             mode_755).

(** The read stream of the tarball is piped into gunzip and that into
    [tar.extract], and the listener for [error] is on the last. *)
Definition extractTarball (tarball destdir : path) (stripdirs : nat)
    : throws unit :=
  piped (tar_extract tarball destdir stripdirs).

Definition destdir (P : process) : path := path_join (dirname P) ["prince"].

Definition ok_message : string :=
  "-- OK: local PrinceXML installation now available".

(** *** Windows

    The removal of the installer is in the callback of [execFile]. *)
Definition unpack_win32 (P : process) (data : payload) : throws unit :=
  let destfile := path_join (dirname P) ["prince.exe"] in
  checked (fs_writeFileSync destfile data) ;;!
  let args := [ "/s"; "/a";
                "/vTARGETDIR=" ++ quote ++ show_path (destdir P) ++ quote
                  ++ " /qn" ] in
  let* (error, stdout, stderr) :=
    do (child_process_execFile (show_path destfile) args) in
  match error with
  | Some e =>
      log ("** ERROR: failed to extract: " ++ show_error e) ;;!
      (if negb (String.eqb stdout EmptyString)
       then log ("** STDOUT: " ++ stdout) else ret tt) ;;!
      (if negb (String.eqb stderr EmptyString)
       then log ("** STDERR: " ++ stderr) else ret tt)
  | None =>
      unguarded (fs_unlinkSync destfile) ;;!
      log ok_message
  end.

(** *** macOS *)

(** The statements of the [try] block after [tempDir] is assigned. *)
Definition unpack_darwin_try (P : process) (data : payload) (tempDir : path)
    : throws unit :=
  let archFileName := path_join tempDir ["prince.zip"] in
  saveFileToDisk archFileName data ;;!
  unzipArchive archFileName tempDir ;;!
  checked (fs_unlinkSync archFileName) ;;!
  let! files := readDir tempDir in
  if Nat.eqb (List.length files) 0 then
    throw (Err "Error" ("No files found in the temp directory: "
                          ++ show_path tempDir))
  else
    (match files with
     | [fName] =>
         let! isDirectory := readFileStat (path_join tempDir [fName]) in
         if negb isDirectory then
           throw (Err "Error"
                    "Found one file in the temp directory. Expected a directory")
         else
           moveFiles (path_join tempDir [fName]) (destdir P) ;;!
           makePrinceExecutable (destdir P)
     | _ => ret tt
     end) ;;!
    removeTmpDir (Some tempDir).

(** The [catch] block, with the value that [tempDir] has when it runs. *)
Definition unpack_darwin_catch (tempDir : option path) (error : error)
    : throws unit :=
  removeTmpDir tempDir ;;!
  throw error.

(** [let tempDir; try { tempDir = await createTmpDir(...); ... } catch ...]:
    when [createTmpDir] throws, [tempDir] has not been assigned. *)
Definition unpack_darwin (P : process) (data : payload) : throws unit :=
  let* created := createTmpDir P (path_join (dirname P) ["tmp-"]) in
  match created with
  | inl (Thrown error) => unpack_darwin_catch None error
  | inl (Uncaught error) => uncaught error
  | inr tempDir =>
      try_catch (unpack_darwin_try P data tempDir)
        (unpack_darwin_catch (Some tempDir))
  end.

(** *** Linux *)

(** The promise of [extractTarball] is given both callbacks and is not
    awaited; what its first callback throws rejects a promise that nobody
    holds.  Neither callback runs when the process ends on an [error] that
    has no listener. *)
Definition unpack_linux (P : process) (data : payload) : throws unit :=
  let destfile := path_join (dirname P) ["prince.tgz"] in
  checked (fs_writeFileSync destfile data) ;;!
  checked (mkdirp_sync (destdir P)) ;;!
  let* extracted := extractTarball destfile (destdir P) 1 in
  match extracted with
  | inr _ =>
      checked (fs_unlinkSync destfile) ;;!
      log ok_message
  | inl (Thrown error) =>
      log ("** ERROR: failed to extract: " ++ show_error error)
  | inl (Uncaught error) => uncaught error
  end.

(** The callback that [install] gives to [downloadData]: an async function
    whose promise nobody holds. *)
Definition unpack (P : process) (data : payload) : throws unit :=
  log "++ locally unpacking PrinceXML distribution" ;;!
  if String.eqb (platform P) "win32" then unpack_win32 P data
  else if String.eqb (platform P) "darwin" then unpack_darwin P data
  else if String.eqb (platform P) "linux" then unpack_linux P data
  else log ("-- Unknown platform " ++ quote ++ platform P ++ quote).

(** ** install and uninstall

    Both end in the exception that escaped, if one did: one that was thrown
    and that nothing caught, or one that ended the process. *)
Definition install (P : process) : prog (option error) :=
  do (console_log "++ checking for globally installed PrinceXML") ;;;
  let* prince := princeInfo in
  match prince with
  | Fulfilled prince =>
      do (console_log ("-- found prince(1) command: " ++ command prince)) ;;;
      do (console_log ("-- found prince(1) version: " ++ version prince)) ;;;
      Ret None
  | _ =>
      do (console_log "++ downloading PrinceXML distribution") ;;;
      let* url := princeDownloadURL P in
      match promise url with
      | Fulfilled url =>
          let* data := downloadData P url in
          match data with
          | Fulfilled data =>
              let* unpacked := unpack P data in
              match unpacked with
              | inl raised => Ret (Some (exception raised))
              | inr _ => Ret None
              end
          | Rejected error =>
              do (console_log ("** ERROR: failed to download: "
                                 ++ show_error error)) ;;;
              Ret None
          | Pending => Ret None
          end
      | _ => Ret (escaped url)
      end
  end.

Definition uninstall (P : process) : prog (option error) :=
  let* present := do (fs_existsSync (destdir P)) in
  if present then
    do (console_log "++ deleting locally unpacked PrinceXML distribution") ;;;
    let* error := do (rimraf (destdir P)) in
    match error with
    | Some e =>
        do (console_log ("** ERROR: " ++ show_error e)) ;;; Ret None
    | None =>
        do (console_log "-- OK: done") ;;; Ret None
    end
  else Ret None.

(** The main procedure: how the process ends, with an exit code of its own
    or with the subcommand and the exception that escaped from it. *)
Inductive ending : Type :=
| Exit (code : N)
| Ran (escaped : option error).

Definition main (P : process) : prog ending :=
  if negb (Nat.eqb (List.length (argv P)) 3) then
    do (console_log "ERROR: invalid number of arguments") ;;; Ret (Exit 1)
  else if bool_decide (argv P !! 2%nat = Some "install") then
    let* e := install P in Ret (Ran e)
  else if bool_decide (argv P !! 2%nat = Some "uninstall") then
    let* e := uninstall P in Ret (Ran e)
  else
    do (console_log "ERROR: invalid argument") ;;; Ret (Exit 1).

(** ** The world

    A disk, the console, and the two ways the outside shows: the answers of
    what the model does not look into (child processes, the network), and the
    calls that fail for a reason the model does not hold (permissions, a full
    disk).  The disk maps a path to what is there. *)

Module World.

Inductive node : Type :=
| Dir
| File (mode : N) (data : payload).

Record world : Type := Make {
  files : gmap path node;
  console : list string;
  fault : forall X, call X -> option error;
  outside : forall X, call X -> X;
  suffix : string                      (* the characters [mkdtemp] adds *)
}.

Definition with_files (m : gmap path node) (w : world) : world :=
  Make m (console w) (fault w) (outside w) (suffix w).

Definition errno (code : string) : error := Err "Error" code.

Definition invalid_path : error :=
  Err "TypeError" "The path argument must be of type string. Received undefined".

Definition mode_644 : N := 420.

Definition exists_at (m : gmap path node) (p : path) : bool :=
  bool_decide (is_Some (m !! p)).

Definition parent (p : path) : path := removelast p.

(** [relative dir q]: the segments of [q] below [dir]. *)
Fixpoint relative (dir q : path) : option path :=
  match dir, q with
  | [], _ => Some q
  | d :: dir', x :: q' => if String.eqb d x then relative dir' q' else None
  | _ :: _, [] => None
  end.

Definition children (m : gmap path node) (dir : path) : list string :=
  omap (fun kv => match relative dir (fst kv) with
                  | Some [name] => Some name
                  | _ => None
                  end) (map_to_list m).

(** Removing a path with all that is below it. *)
Definition remove_tree (p : path) (m : gmap path node) : gmap path node :=
  filter (fun kv => ~ p `prefix_of` fst kv) m.

(** Moving a path with all that is below it. *)
Definition move_tree (source dest : path) (m : gmap path node)
    : gmap path node :=
  list_to_map
    (omap (fun kv =>
             (fun r => (path_join dest r, snd kv)) <$> relative source (fst kv))
       (map_to_list m))
  ∪ remove_tree source m.

Fixpoint prefixes (p : path) : list path :=
  match p with
  | [] => [[]]
  | x :: p' => [] :: map (cons x) (prefixes p')
  end.

(** Making a directory with the directories above it. *)
Definition mkdirs (p : path) (m : gmap path node) : gmap path node :=
  foldr (fun q m => match m !! q with
                    | None => <[q := Dir]> m
                    | Some _ => m
                    end) m (prefixes p).

(** Unpacking the entries of an archive below [dest]: [strip] leading
    segments are dropped with the entries that have no more; a tarball
    carries the mode of a file, a zip stream is written with the default. *)
Definition unpack_entries (dest : path) (strip : nat) (keep_mode : bool)
    (es : entries) (m : gmap path node) : gmap path node :=
  foldl (fun m e =>
           match List.skipn strip (fst e) with
           | [] => m
           | q =>
               match snd e with
               | None => mkdirs (path_join dest q) m
               | Some (mode, s) =>
                   <[path_join dest q :=
                       File (if keep_mode then mode else mode_644)
                         (Payload s None)]>
                     (mkdirs (parent (path_join dest q)) m)
               end
           end) m es.

(** Bytes that are not an archive of the format: gunzip, which stands
    before [tar.extract], refuses them for a tarball, and [unzip.Extract]
    itself for a zip. *)
Definition not_an_archive (f : format) : stream_error :=
  match f with
  | tgz => Unheard (errno "incorrect header check")
  | zip => Heard (errno "invalid signature")
  end.

(** What the read stream and the streams after it make of a file. *)
Definition archive_at (f : format) (m : gmap path node) (file : path)
    : stream_error + entries :=
  match m !! file with
  | Some (File _ data) =>
      match unpacks data with
      | Some (f', es) =>
          if bool_decide (f = f') then inr es
          else inl (not_an_archive f)
      | None => inl (not_an_archive f)
      end
  | Some Dir => inl (Unheard (errno "EISDIR"))
  | None => inl (Unheard (errno "ENOENT"))
  end.

Definition write (file : path) (data : payload) (m : gmap path node)
    : option error * gmap path node :=
  match m !! parent file, m !! file with
  | Some Dir, Some Dir => (Some (errno "EISDIR"), m)
  | Some Dir, Some (File mode _) => (None, <[file := File mode data]> m)
  | Some Dir, None => (None, <[file := File mode_644 data]> m)
  | _, _ => (Some (errno "ENOENT"), m)
  end.

(** The answer to a call that fails from outside; a pipeline fails at its
    last stream, the one that writes. *)
Definition failure {X : Type} (c : call X) (e : error) : option X :=
  match c in call X return option X with
  | fs_writeFileSync _ _ | fs_writeFile _ _ | fs_unlinkSync _
  | fs_rmdir _ | fs_rename _ _ | fs_chmodSync _ _
  | mkdirp_sync _ | rimraf _ => Some (Some e)
  | unzip_Extract _ _ | tar_extract _ _ _ => Some (Some (Heard e))
  | fs_mkdtemp _ => Some (inl e)
  | fs_readdir _ => Some (inl e)
  | fs_stat _ => Some (inl e)
  | _ => None
  end.

(** The answer of the disk. *)
Definition disk {X : Type} (c : call X) (w : world) : X * world :=
  let m := files w in
  match c in call X return X * world with
  | console_log msg =>
      (tt, Make m (console w ++ [msg])%list (fault w) (outside w) (suffix w))
  | fs_existsSync p => (exists_at m p, w)
  | rimraf p => (None, with_files (remove_tree p m) w)
  | fs_rmdir None => (Some invalid_path, w)
  | fs_rmdir (Some p) =>
      match m !! p with
      | Some (File _ _) => (Some (errno "ENOTDIR"), w)
      | _ => (None, with_files (remove_tree p m) w)
      end
  | fs_mkdtemp prefix =>
      let dir :=
        path_join (parent prefix)
          [List.last prefix EmptyString ++ suffix w] in
      match m !! parent prefix, m !! dir with
      | Some Dir, None => (inr dir, with_files (<[dir := Dir]> m) w)
      | Some Dir, Some _ => (inl (errno "EEXIST"), w)
      | _, _ => (inl (errno "ENOENT"), w)
      end
  | fs_writeFileSync file data =>
      let '(r, m') := write file data m in (r, with_files m' w)
  | fs_writeFile file data =>
      let '(r, m') := write file data m in (r, with_files m' w)
  | fs_unlinkSync file =>
      match m !! file with
      | Some (File _ _) => (None, with_files (delete file m) w)
      | Some Dir => (Some (errno "EPERM"), w)
      | None => (Some (errno "ENOENT"), w)
      end
  | fs_readdir dir =>
      match m !! dir with
      | Some Dir => (inr (children m dir), w)
      | Some (File _ _) => (inl (errno "ENOTDIR"), w)
      | None => (inl (errno "ENOENT"), w)
      end
  | fs_stat file =>
      match m !! file with
      | Some Dir => (inr true, w)
      | Some (File _ _) => (inr false, w)
      | None => (inl (errno "ENOENT"), w)
      end
  | fs_rename source dest =>
      match m !! source, m !! parent dest, m !! dest with
      | None, _, _ => (Some (errno "ENOENT"), w)
      | Some _, Some Dir, None =>
          (None, with_files (move_tree source dest m) w)
      | Some Dir, Some Dir, Some Dir =>
          match children m dest with
          | [] => (None, with_files (move_tree source dest m) w)
          | _ => (Some (errno "ENOTEMPTY"), w)
          end
      | Some (File _ _), Some Dir, Some (File _ _) =>
          (None, with_files (move_tree source dest m) w)
      | Some Dir, Some Dir, Some (File _ _) => (Some (errno "ENOTDIR"), w)
      | Some (File _ _), Some Dir, Some Dir => (Some (errno "EISDIR"), w)
      | Some _, _, _ => (Some (errno "ENOENT"), w)
      end
  | fs_chmodSync file mode =>
      match m !! file with
      | Some (File _ data) =>
          (None, with_files (<[file := File mode data]> m) w)
      | Some Dir => (None, w)
      | None => (Some (errno "ENOENT"), w)
      end
  | unzip_Extract file dest =>
      match archive_at zip m file with
      | inr es => (None, with_files (unpack_entries dest 0 false es m) w)
      | inl e => (Some e, w)
      end
  | tar_extract file cwd strip =>
      match archive_at tgz m file with
      | inr es => (None, with_files (unpack_entries cwd strip true es m) w)
      | inl e => (Some e, w)
      end
  | mkdirp_sync dir =>
      match m !! dir with
      | Some (File _ _) => (Some (errno "EEXIST"), w)
      | _ => (None, with_files (mkdirs dir m) w)
      end
  | which cmd => (outside w _ (which cmd), w)
  | child_process_execFile file args =>
      (outside w _ (child_process_execFile file args), w)
  | child_process_exec cmd => (outside w _ (child_process_exec cmd), w)
  | request url proxy => (outside w _ (request url proxy), w)
  | unhandledRejection reason => (outside w _ (unhandledRejection reason), w)
  end.

Definition answer (X : Type) (c : call X) (w : world) : X * world :=
  match fault w X c with
  | Some e =>
      match failure c e with
      | Some x => (x, w)
      | None => disk c w
      end
  | None => disk c w
  end.

(** No call fails from outside. *)
Definition no_fault : forall X, call X -> option error := fun _ _ => None.

End World.

(** ** Sample worlds *)

Module Sample.
Import World.

(** An outside where [prince] is not installed, a child process prints
    nothing, a request brings nothing and the runtime ends the process on a
    rejection that has no handler. *)
Definition silent (X : Type) (c : call X) : X :=
  match c in call X return X with
  | which _ => inl (errno "not found: prince")
  | child_process_execFile _ _ => (None, EmptyString, EmptyString)
  | child_process_exec _ => (None, EmptyString)
  | console_log _ => tt
  | request _ _ => (None, 200%N, Payload EmptyString None)
  | fs_writeFileSync _ _ | fs_writeFile _ _ | fs_unlinkSync _
  | fs_rmdir _ | fs_rename _ _ | fs_chmodSync _ _
  | mkdirp_sync _ | rimraf _ => None
  | unzip_Extract _ _ | tar_extract _ _ _ => None
  | fs_mkdtemp prefix => inr prefix
  | fs_readdir _ => inr []
  | fs_stat _ => inr false
  | fs_existsSync _ => false
  | unhandledRejection _ => true
  end.

(** An outside where [shtool] prints [stdout] and the download brings
    [body]. *)
Definition host (stdout : string) (body : payload) (X : Type) (c : call X)
    : X :=
  match c in call X return X with
  | child_process_exec cmd =>
      if String.eqb cmd "npm config get proxy"
      then (None, String "010" EmptyString)
      else (None, stdout)
  | request _ _ => (None, 200%N, body)
  | c => silent _ c
  end.

Definition here : path := ["pkg"].

(** A disk with the directory of the package and nothing in it. *)
Definition fresh : gmap path node := {[ [] := Dir; here := Dir ]}.

Definition mac : process :=
  Process "darwin" "x64" None ["node"; "prince-npm.js"; "install"] here.

Definition linux_box : process :=
  Process "linux" "x64" None ["node"; "prince-npm.js"; "install"] here.

Definition windows : process :=
  Process "win32" "x64" None ["node"; "prince-npm.js"; "install"] here.

Definition newline : string := String "010" EmptyString.

(** A distribution as the vendor packs it: one directory at the top. *)
Definition distribution (top : string) : entries :=
  [ ([top], None);
    ([top; "lib"], None);
    ([top; "lib"; "prince"], None);
    ([top; "lib"; "prince"; "bin"], None);
    ([top; "lib"; "prince"; "bin"; "prince"], Some (420%N, "ELF"));
    ([top; "lib"; "prince"; "bin"; "princedebug"], Some (420%N, "ELF")) ].

(** The same archive after Finder has zipped it: a second entry at the
    top. *)
Definition finder_zip : payload :=
  Payload "PK" (Some (zip, (distribution "prince-14-macos"
                              ++ [ (["__MACOSX"], None) ])%list)).

Definition vendor_zip : payload :=
  Payload "PK" (Some (zip, distribution "prince-14-macos")).

Definition vendor_tgz : payload :=
  Payload "GZ" (Some (tgz, distribution "prince-14-ubuntu20.04-amd64")).

Definition world_of (stdout : string) (body : payload) : world :=
  Make fresh [] no_fault (host stdout body) "AbCdEf".

(** Answers where the environment and npm both name a proxy. *)
Definition both_proxies (X : Type) (c : call X) : X :=
  match c in call X return X with
  | child_process_exec _ => (None, "http://npm.example:3128" ++ newline)
  | c => silent _ c
  end.

(** Answers under which the archive has unpacked to the entries [names] of
    a temporary directory, and every call succeeds. *)
Definition staged (names : list string) (X : Type) (c : call X) : X :=
  match c in call X return X with
  | fs_mkdtemp _ => inr (path_join here ["tmp-AbCdEf"])
  | fs_readdir _ => inr names
  | fs_stat _ => inr true
  | c => silent _ c
  end.

(** Answers under which the temporary directory cannot be made. *)
Definition no_tmp (X : Type) (c : call X) : X :=
  match c in call X return X with
  | fs_mkdtemp _ => inl (errno "EACCES")
  | fs_rmdir None => Some invalid_path
  | c => silent _ c
  end.

(** The faults of a directory of the package that cannot be written to. *)
Definition read_only (X : Type) (c : call X) : option error :=
  match c with
  | fs_mkdtemp _ | fs_writeFileSync _ _ | rimraf _ => Some (errno "EACCES")
  | _ => None
  end.

(** The world after an install on Ubuntu 20.04. *)
Definition installed : world :=
  snd (run answer (install linux_box)
         (world_of "amd64-ubuntu20.04" vendor_tgz)).

End Sample.

(** ** Readings of the specification *)

(** What is left of [s] after [prefix], when [s] starts with it. *)
Fixpoint after (prefix s : string) : option string :=
  match prefix, s with
  | EmptyString, _ => Some s
  | String a p, String b s' => if Ascii.eqb a b then after p s' else None
  | String _ _, EmptyString => None
  end.

Definition starts_a_line (s : string) : bool :=
  match s with
  | String c _ => negb (Js.line_terminator c)
  | EmptyString => false
  end.

(** "Parses as an http(s) URL": [http://] or [https://] and then at least
    one character of the same line. *)
Definition is_http_url (s : string) : bool :=
  match after "http://" s, after "https://" s with
  | Some rest, _ => starts_a_line rest
  | None, Some rest => starts_a_line rest
  | None, None => false
  end.

Definition matches (o : option mstate) : bool :=
  match o with Some _ => true | None => false end.

(** The write of the archive does not end the process: it has no error, or
    the runtime lets the rejection pass. *)
Definition write_passes (answers : forall X, call X -> X) (file : path)
    (data : payload) : bool :=
  match answers _ (fs_writeFile file data) with
  | None => true
  | Some e => negb (answers _ (unhandledRejection e))
  end.

(** "The compatibility table" of the specification lists Ubuntu, Debian
    and CentOS. *)
Definition in_table (name : option string) : bool :=
  bool_decide (name ∈ [Some "ubuntu"; Some "debian"; Some "centos"]).

(** "Version 20.x or 21.x", and so on for the other ranges: the two
    characters of the range, and then groups of a dot and one or more
    digits, to the end. *)
Inductive tail_state : Type := AtGroup | AfterDot | InDigits.

Definition is_digit (c : ascii) : bool := in_ranges [("0", "9")]%char c.

Fixpoint version_tail (st : tail_state) (s : string) : bool :=
  match s, st with
  | EmptyString, AfterDot => false
  | EmptyString, _ => true
  | String c s', AtGroup =>
      if Ascii.eqb "." c then version_tail AfterDot s' else false
  | String c s', AfterDot =>
      if is_digit c then version_tail InDigits s' else false
  | String c s', InDigits =>
      if is_digit c then version_tail InDigits s'
      else if Ascii.eqb "." c then version_tail AfterDot s' else false
  end.

Definition is_version (a : ascii) (ranges : list (ascii * ascii)) (v : string)
    : bool :=
  match v with
  | String a' (String b s) =>
      Ascii.eqb a a' && in_ranges ranges b && version_tail AtGroup s
  | _ => false
  end.

Definition ubuntu_14_15 : string -> bool := is_version "1" [("4", "5")]%char.
Definition ubuntu_16_17 : string -> bool := is_version "1" [("6", "7")]%char.
Definition ubuntu_18_19 : string -> bool := is_version "1" [("8", "9")]%char.
Definition ubuntu_20_21 : string -> bool := is_version "2" [("0", "1")]%char.

(** The group of a version test, and the end of the input as a
    continuation. *)
Definition dot_group : regex := Seq (Chr ".") (Plus digit).

Definition at_end (y : mstate) : option mstate :=
  match rest y with EmptyString => Some y | String _ _ => None end.

(** The platform triple of Ubuntu on amd64. *)
Definition ubuntu_amd64 (v : string) : os_info :=
  OsInfo (Some "amd64") (Some "ubuntu") (Some v).


(** ** More readings: what a trace holds, and what the resolver can answer *)

Definition execFiles : list event -> list (string * list string) :=
  calls_of (fun X c _ =>
    match c with
    | child_process_execFile file args => Some (file, args)
    | _ => None
    end).

Definition logs : list event -> list string :=
  calls_of (fun X c _ =>
    match c with console_log msg => Some msg | _ => None end).

Definition unlinks : list event -> list (path * option error) :=
  calls_of (fun X c =>
    match c in call X return X -> option (path * option error) with
    | fs_unlinkSync file => fun x => Some (file, x)
    | _ => fun _ => None
    end).

Definition rimrafs : list event -> list path :=
  calls_of (fun X c _ => match c with rimraf dir => Some dir | _ => None end).

(** The paths that a call to the disk names. *)
Definition names (X : Type) (c : call X) : list path :=
  match c with
  | fs_writeFileSync file _ | fs_writeFile file _ | fs_unlinkSync file
  | fs_stat file | fs_chmodSync file _ | fs_existsSync file => [file]
  | fs_mkdtemp dir | fs_readdir dir | mkdirp_sync dir | rimraf dir => [dir]
  | fs_rmdir dir => option_list dir
  | fs_rename source dest => [source; dest]
  | unzip_Extract file dest => [file; dest]
  | tar_extract file cwd _ => [file; cwd]
  | _ => []
  end.

Definition named (t : list event) : list path :=
  mjoin (calls_of (fun X c _ => Some (names X c)) t).

(** Whether a call goes to the disk. *)
Definition is_disk (X : Type) (c : call X) : bool :=
  match c with
  | which _ | child_process_execFile _ _ | child_process_exec _
  | console_log _ | request _ _ | unhandledRejection _ => false
  | _ => true
  end.

Definition disk_calls : list event -> list unit :=
  calls_of (fun X c _ => if is_disk X c then Some tt else None).

(** The URLs of the resolver, by platform. *)
Definition windows_urls : list string :=
  [ "https://www.princexml.com/download/prince-14-win64-setup.exe";
    "https://www.princexml.com/download/prince-14-win32-setup.exe" ].

Definition macos_url : string :=
  "https://www.princexml.com/download/prince-14-macos.zip".

Definition ubuntu_urls : list string :=
  [ "https://www.princexml.com/download/prince-14-ubuntu14.04-amd64.tar.gz";
    "https://www.princexml.com/download/prince-14-ubuntu16.04-amd64.tar.gz";
    "https://www.princexml.com/download/prince-14-ubuntu18.04-amd64.tar.gz";
    "https://www.princexml.com/download/prince-14-ubuntu20.04-amd64.tar.gz";
    "https://www.princexml.com/download/prince-14-ubuntu14.04-i386.tar.gz";
    "https://www.princexml.com/download/prince-14-ubuntu16.04-i386.tar.gz";
    "https://www.princexml.com/download/prince-14-ubuntu18.04-i386.tar.gz" ].

(** Whether the character [a] occurs in [s]. *)
Fixpoint occurs (a : ascii) (s : string) : bool :=
  match s with
  | EmptyString => false
  | String c s' => Ascii.eqb a c || occurs a s'
  end.

(** A line end that ends the string: LF, or CR LF. *)
Definition is_eol (s : string) : bool :=
  match s with
  | String a EmptyString => Ascii.eqb "010" a
  | String a (String b EmptyString) => Ascii.eqb "013" a && Ascii.eqb "010" b
  | _ => false
  end.

(** A string less its final line end. *)
Fixpoint chomp (s : string) : string :=
  match s with
  | EmptyString => EmptyString
  | String c s' => if is_eol s then EmptyString else String c (chomp s')
  end.

(** Whether a string is one line: no LF and no CR in it. *)
Definition one_line (s : string) : bool :=
  negb (occurs "010" s) && negb (occurs "013" s).

Definition untars : list event -> list (path * path * nat) :=
  calls_of (fun X c _ =>
    match c with
    | tar_extract file cwd strip => Some (file, cwd, strip)
    | _ => None
    end).

(** ** More sample answers *)

Module Scene.
Import World Sample.

(** Answers where [prince] is installed and prints its banner. *)
Definition with_prince (X : Type) (c : call X) : X :=
  match c in call X return X with
  | which _ => inr "/usr/bin/prince"
  | child_process_execFile _ _ =>
      (None, "Prince 14.2" ++ newline ++ "Copyright YesLogic", EmptyString)
  | c => silent _ c
  end.

(** Answers where the command of the probe fails and prints nothing. *)
Definition broken_shtool (X : Type) (c : call X) : X :=
  match c in call X return X with
  | child_process_exec _ => (Some (errno "Command failed"), EmptyString)
  | c => silent _ c
  end.

(** Answers where the server has no such file. *)
Definition not_found (stdout : string) (X : Type) (c : call X) : X :=
  match c in call X return X with
  | request _ _ => (None, 404%N, Payload "Not Found" None)
  | c => host stdout (Payload EmptyString None) _ c
  end.

(** Answers where the bytes of the tarball are not gzip: the error is that
    of gunzip, a stream before the one with the listener. *)
Definition bad_tarball (X : Type) (c : call X) : X :=
  match c in call X return X with
  | tar_extract _ _ _ => Some (Unheard (errno "incorrect header check"))
  | c => host "amd64-ubuntu20.04" vendor_tgz _ c
  end.

(** Answers where the bytes are gzip and what is in them is no tar archive:
    the error is that of [tar.extract]. *)
Definition bad_archive (X : Type) (c : call X) : X :=
  match c in call X return X with
  | tar_extract _ _ _ =>
      Some (Heard (Err "Error" "TAR_BAD_ARCHIVE: Unrecognized archive format"))
  | c => host "amd64-ubuntu20.04" vendor_tgz _ c
  end.


End Scene.

(** * Properties *)

(** ** Programs and patterns *)

Section Semantics.
Variable answers : forall X, call X -> X.

Lemma eval_bind {A B : Type} (p : prog A) (f : A -> prog B) :
  eval answers (bind p f) = eval answers (f (eval answers p)).
Proof. induction p as [a | X c k IH]; simpl; [reflexivity | apply IH]. Qed.

Lemma trace_bind {A B : Type} (p : prog A) (f : A -> prog B) :
  trace answers (bind p f)
  = (trace answers p ++ trace answers (f (eval answers p)))%list.
Proof.
  induction p as [a | X c k IH]; simpl; [reflexivity | now rewrite IH].
Qed.

Lemma calls_of_app {B : Type} (f : forall X, call X -> X -> option B)
    (t1 t2 : list event) :
  calls_of f (t1 ++ t2)%list = (calls_of f t1 ++ calls_of f t2)%list.
Proof. unfold calls_of. apply omap_app. Qed.
End Semantics.

Lemma requests_app t1 t2 :
  requests (t1 ++ t2)%list = (requests t1 ++ requests t2)%list.
Proof. apply calls_of_app. Qed.

Lemma execs_app t1 t2 : execs (t1 ++ t2)%list = (execs t1 ++ execs t2)%list.
Proof. apply calls_of_app. Qed.

Lemma chmods_app t1 t2 : chmods (t1 ++ t2)%list = (chmods t1 ++ chmods t2)%list.
Proof. apply calls_of_app. Qed.

Lemma renames_app t1 t2 :
  renames (t1 ++ t2)%list = (renames t1 ++ renames t2)%list.
Proof. apply calls_of_app. Qed.


(** An anchored pattern matches at the start or nowhere. *)
Lemma exec_from_Bol (icase : bool) (r : regex) (s : string) (i : nat) :
  exec_from icase (Seq Bol r) (S i) s = None.
Proof.
  revert i. induction s as [| a s IH]; intro i; simpl; [reflexivity | apply IH].
Qed.

Lemma test_Bol_eq (icase : bool) (r : regex) (s : string) :
  test icase (Seq Bol r) s = matches (matcher icase r (MState 0 s []) Some).
Proof.
  unfold test, exec. destruct s as [| a s]; simpl.
  - destruct (matcher icase r _ Some); reflexivity.
  - destruct (matcher icase r _ Some); [reflexivity |].
    change (match exec_from icase (Seq Bol r) 1 s with
            | Some _ => true
            | None => false
            end = false).
    rewrite exec_from_Bol. reflexivity.
Qed.

(** *** The rounds of a quantifier *)

(** A round below the minimum is made without an alternative. *)
Lemma rounds_mandatory m fuel n x c :
  rounds m (S fuel) (S n) None x c
  = m x (fun y => rounds m fuel n None y c).
Proof. reflexivity. Qed.

(** A round past the minimum has the continuation as its alternative, and
    must move on. *)
Lemma rounds_more m fuel x c :
  rounds m (S fuel) 0 None x c
  = match m x (fun y => if Nat.eqb (idx y) (idx x) then None
                        else rounds m fuel 0 None y c) with
    | Some z => Some z
    | None => c x
    end.
Proof. reflexivity. Qed.

Lemma rounds_exhausted m fuel min x c :
  rounds m fuel min (Some 0) x c = c x.
Proof. destruct fuel; reflexivity. Qed.

(** Past its minimum a quantifier cannot fail where its continuation does
    not. *)
Lemma rounds_optional m fuel max x c :
  matches (c x) = true -> matches (rounds m fuel 0 max x c) = true.
Proof.
  intros H. destruct fuel as [| fuel], max as [[| n] |]; cbn; try exact H.
  - destruct (m x _); [reflexivity | exact H].
  - destruct (m x _); [reflexivity | exact H].
Qed.

Lemma matches_or (o o' : option mstate) :
  matches (match o with Some z => Some z | None => o' end)
  = matches o || matches o'.
Proof. destruct o; reflexivity. Qed.

Lemma matcher_Opt_nil icase r i caps c :
  matcher icase (Opt r) (MState i EmptyString caps) c
  = c (MState i EmptyString caps).
Proof. reflexivity. Qed.

Lemma matcher_Opt_cons icase r i a s caps c :
  matcher icase (Opt r) (MState i (String a s) caps) c
  = match matcher icase r (MState i (String a s) caps)
            (fun y => if Nat.eqb (idx y) i then None
                      else rounds (matcher icase r) (String.length s) 0
                             (Some 0) y c) with
    | Some z => Some z
    | None => c (MState i (String a s) caps)
    end.
Proof. reflexivity. Qed.

Lemma class_matches_false ranges c :
  class_matches false ranges c = in_ranges ranges c.
Proof. unfold class_matches. cbn. apply orb_false_r. Qed.

(** *** The version tests *)

Ltac by_cases_on_char :=
  intros [[] [] [] [] [] [] [] []]; vm_compute; congruence.

Lemma digit_is_no_dot c : is_digit c = true -> Ascii.eqb "." c = false.
Proof. revert c. by_cases_on_char. Qed.

Lemma matcher_digit_nil i caps k :
  matcher false digit (MState i EmptyString caps) k = None.
Proof. reflexivity. Qed.

Lemma matcher_digit_cons i c s caps k :
  matcher false digit (MState i (String c s) caps) k
  = if is_digit c then k (MState (S i) s caps) else None.
Proof.
  cbn [matcher digit step_char rest idx RegExp.caps].
  rewrite class_matches_false. reflexivity.
Qed.

Lemma matcher_dot_group_cons i c s caps k :
  matcher false dot_group (MState i (String c s) caps) k
  = if Ascii.eqb "." c
    then rounds (matcher false digit) (S (String.length s)) 1 None
           (MState (S i) s caps) k
    else None.
Proof. reflexivity. Qed.

(** The digits of a group after its first: [d] is what follows the group,
    known on what is left of the input. *)
Lemma digits_tail (bound i : nat) (d : mstate -> option mstate) :
  (forall j t caps, i < j -> String.length t <= bound ->
     matches (d (MState j t caps)) = version_tail AtGroup t) ->
  forall s j caps fuel,
    i < j -> String.length s <= bound -> String.length s <= fuel ->
    matches (rounds (matcher false digit) fuel 0 None (MState j s caps) d)
    = version_tail InDigits s.
Proof.
  intros Hd. induction s as [| c s IH]; intros j caps fuel Hj Hb Hf.
  - destruct fuel as [| fuel].
    + cbn [rounds]. rewrite Hd by (cbn; lia). reflexivity.
    + rewrite rounds_more, matches_or, matcher_digit_nil.
      rewrite Hd by (cbn; lia). reflexivity.
  - destruct fuel as [| fuel]; [cbn in Hf; lia |].
    cbn [String.length] in Hb, Hf.
    rewrite rounds_more, matches_or, matcher_digit_cons.
    rewrite Hd by (cbn; lia). cbn [version_tail idx].
    destruct (is_digit c) eqn:Hc.
    + rewrite (digit_is_no_dot c Hc), orb_false_r.
      replace (Nat.eqb (S j) j) with false
        by (symmetry; apply Nat.eqb_neq; lia).
      apply IH; lia.
    + reflexivity.
Qed.

(** The groups of a dot and digits, up to the end of the input. *)
Lemma groups_tail (n : nat) :
  forall s i caps fuel,
    String.length s <= n -> String.length s <= fuel ->
    matches (rounds (matcher false dot_group) fuel 0 None (MState i s caps)
               at_end)
    = version_tail AtGroup s.
Proof.
  induction n as [| n IH]; intros s i caps fuel Hn Hf.
  - destruct s; [| cbn in Hn; lia]. destruct fuel; reflexivity.
  - destruct s as [| c s]; [destruct fuel; reflexivity |].
    destruct fuel as [| fuel]; [cbn in Hf; lia |].
    cbn [String.length] in Hn, Hf.
    rewrite rounds_more, matches_or, matcher_dot_group_cons.
    cbn [at_end rest matches version_tail idx]. rewrite orb_false_r.
    destruct (Ascii.eqb "." c); [| reflexivity].
    destruct s as [| c' s]; [reflexivity |].
    rewrite rounds_mandatory, matcher_digit_cons. cbn [version_tail].
    destruct (is_digit c'); [| reflexivity].
    cbn [String.length] in Hn, Hf.
    apply (digits_tail (String.length s) i); try (cbn [String.length]; lia).
    intros j t caps' Hj Ht. cbn [idx].
    replace (Nat.eqb j i) with false by (symmetry; apply Nat.eqb_neq; lia).
    apply IH; lia.
Qed.

(** A version test accepts the two leading characters of its range and then
    groups of a dot and digits, to the end. *)
Lemma version_re_spec (a : ascii) (ranges : list (ascii * ascii)) (v : string) :
  test false (version_re (Seq (Chr a) (Class ranges))) v
  = is_version a ranges v.
Proof.
  unfold version_re. cbn [seq]. rewrite test_Bol_eq.
  destruct v as [| a' [| b s]]; [reflexivity | |].
  - cbn. destruct (Ascii.eqb a a'); reflexivity.
  - cbn [matcher step_char rest idx RegExp.caps chr_matches is_version].
    destruct (Ascii.eqb a a'); [| reflexivity].
    rewrite class_matches_false.
    destruct (in_ranges ranges b); [| reflexivity].
    cbn [andb]. unfold Star.
    change (matcher false (Rep 0 None (Seq (Chr ".") (Plus digit))) ?x ?c)
      with (rounds (matcher false dot_group) (String.length (rest x)) 0 None
              x c).
    cbn [rest].
    apply (groups_tail (String.length s)); lia.
Qed.

(** Two ranges that differ in a leading character accept no common
    version. *)
Lemma is_version_exclusive (a1 a2 : ascii) (r1 r2 : list (ascii * ascii))
    (v : string) :
  is_version a1 r1 v = true ->
  a1 <> a2 \/ (forall b, in_ranges r1 b = true -> in_ranges r2 b = false) ->
  is_version a2 r2 v = false.
Proof.
  destruct v as [| a [| b s]]; try discriminate.
  cbn [is_version]. intros H Hd.
  apply andb_true_iff in H as [H _]. apply andb_true_iff in H as [Ha Hb].
  apply Ascii.eqb_eq in Ha as <-.
  destruct Hd as [Hd | Hd].
  - destruct (Ascii.eqb_spec a2 a1) as [-> |]; [congruence | reflexivity].
  - rewrite (Hd b Hb), andb_false_r. reflexivity.
Qed.

Lemma class_45_67 b :
  in_ranges [("4", "5")]%char b = true -> in_ranges [("6", "7")]%char b = false.
Proof. revert b. by_cases_on_char. Qed.

Lemma class_45_89 b :
  in_ranges [("4", "5")]%char b = true -> in_ranges [("8", "9")]%char b = false.
Proof. revert b. by_cases_on_char. Qed.

Lemma class_67_89 b :
  in_ranges [("6", "7")]%char b = true -> in_ranges [("8", "9")]%char b = false.
Proof. revert b. by_cases_on_char. Qed.

(** *** The proxy test *)

Lemma plus_dot (s : string) (i : nat) (caps : list (nat * string)) :
  matches (matcher false (Plus Dot) (MState i s caps) Some) = starts_a_line s.
Proof.
  destruct s as [| a s]; [reflexivity |].
  change (matcher false (Plus Dot) (MState i (String a s) caps) Some)
    with (rounds (matcher false Dot) (S (S (String.length s))) 1 None
            (MState i (String a s) caps) Some).
  rewrite rounds_mandatory.
  cbn [matcher step_char rest idx RegExp.caps starts_a_line].
  destruct (negb (Js.line_terminator a)); [| reflexivity].
  apply rounds_optional. reflexivity.
Qed.

Ltac split_string :=
  match goal with
  | |- context [match ?s with EmptyString => _ | String _ _ => _ end] =>
      is_var s; destruct s
  | |- context [Ascii.eqb ?p ?a] =>
      is_var a; destruct (Ascii.eqb_spec p a) as [<- |]
  end.

Ltac ground_eqb :=
  match goal with
  | |- context [Ascii.eqb ?p ?q] =>
      tryif is_var q then fail
      else (let v := eval vm_compute in (Ascii.eqb p q) in
            change (Ascii.eqb p q) with v)
  end.

Ltac crunch :=
  repeat first
    [ reflexivity
    | rewrite rounds_exhausted
    | rewrite plus_dot
    | rewrite matches_or
    | rewrite orb_false_r
    | solve [exfalso; congruence]
    | rewrite matcher_Opt_cons
    | rewrite matcher_Opt_nil
    | ground_eqb
    | split_string
    | progress cbn [matcher step_char rest idx RegExp.caps chr_matches after
                    Nat.eqb matches orb andb] ].

(** The proxy test accepts what starts with [http://] or [https://] and
    goes on on the same line. *)
Lemma re_proxy_spec (s : string) : test false re_proxy s = is_http_url s.
Proof.
  unfold re_proxy. cbn [seq]. rewrite test_Bol_eq.
  unfold is_http_url, lit. cbn [seq map list_ascii_of_string].
  crunch.
Qed.

Section Resolver.
Variable answers : forall X, call X -> X.
Variable P : process.

Lemma eval_getLinuxOSInfo :
  eval answers (getLinuxOSInfo P)
  = osInfoCallback (fst (answers _ (child_process_exec (shtool_command P))))
      (snd (answers _ (child_process_exec (shtool_command P)))).
Proof.
  unfold getLinuxOSInfo. cbn [bind do eval].
  destruct (answers _ _) as [error stdout]. reflexivity.
Qed.

Lemma trace_getLinuxOSInfo :
  execs (trace answers (getLinuxOSInfo P)) = [shtool_command P]
  /\ requests (trace answers (getLinuxOSInfo P)) = [].
Proof.
  unfold getLinuxOSInfo. cbn [bind do trace].
  destruct (answers _ _) as [error stdout]. split; reflexivity.
Qed.

Lemma princeDownloadURL_linux :
  platform P = "linux" ->
  princeDownloadURL P
  = (let* osInfo := getLinuxOSInfo P in Ret (await osInfo linux_arms)).
Proof. intros H. unfold princeDownloadURL. rewrite H. reflexivity. Qed.

Lemma princeDownloadURL_darwin :
  platform P = "darwin" ->
  princeDownloadURL P
  = (let* osInfo := getLinuxOSInfo P in
     Ret (await osInfo (fun _ => resolved (download "-macos.zip")))).
Proof. intros H. unfold princeDownloadURL. rewrite H. reflexivity. Qed.

(** On Linux the resolver is the probe followed by the arms for the
    distribution. *)
Lemma eval_linux (info : os_info) :
  platform P = "linux" ->
  eval answers (getLinuxOSInfo P) = Async (Fulfilled info) None ->
  eval answers (princeDownloadURL P) = linux_arms info.
Proof.
  intros HP Hinfo. rewrite (princeDownloadURL_linux HP), eval_bind, Hinfo.
  reflexivity.
Qed.

(** A distribution other than Ubuntu falls through [switch (osName)]. *)
Lemma linux_other_distro (info : os_info) :
  platform P = "linux" ->
  eval answers (getLinuxOSInfo P) = Async (Fulfilled info) None ->
  osName info <> Some "ubuntu" ->
  eval answers (princeDownloadURL P) = idle.
Proof.
  intros HP Hinfo Hname. rewrite (eval_linux info HP Hinfo).
  unfold linux_arms. rewrite bool_decide_eq_false_2 by exact Hname.
  reflexivity.
Qed.

Lemma requests_princeInfo : requests (trace answers princeInfo) = [].
Proof.
  unfold princeInfo. cbn [bind do trace].
  destruct (answers _ (which "prince")) as [e | filename]; [reflexivity |].
  cbn [bind do trace].
  destruct (answers _ _) as [[[e |] stdout] stderr]; [reflexivity |].
  destruct (exec false re_banner stdout ≫= group 1); reflexivity.
Qed.

Lemma requests_princeDownloadURL :
  requests (trace answers (princeDownloadURL P)) = [].
Proof.
  unfold princeDownloadURL.
  repeat match goal with
         | |- context [if ?b then _ else _] => destruct b
         end;
    try reflexivity;
    rewrite trace_bind, requests_app;
    rewrite (proj2 trace_getLinuxOSInfo); reflexivity.
Qed.

(** The download is asked for only with a URL that the resolver's promise
    was fulfilled with. *)
Lemma install_requests :
  (forall url, promise (eval answers (princeDownloadURL P)) <> Fulfilled url) ->
  requests (trace answers (install P)) = [].
Proof.
  intros Hpending. unfold install.
  rewrite trace_bind, requests_app. cbn [do trace].
  rewrite trace_bind, requests_app, requests_princeInfo.
  assert (Hrest :
    requests (trace answers
      (do (console_log "++ downloading PrinceXML distribution") ;;;
       let* url := princeDownloadURL P in
       match promise url with
       | Fulfilled url =>
           let* data := downloadData P url in
           match data with
           | Fulfilled data =>
               let* unpacked := unpack P data in
               match unpacked with
               | inl raised => Ret (Some (exception raised))
               | inr _ => Ret None
               end
           | Rejected error =>
               do (console_log ("** ERROR: failed to download: "
                                  ++ show_error error)) ;;;
               Ret None
           | Pending => Ret None
           end
       | _ => Ret (escaped url)
       end)) = []).
  { rewrite trace_bind, requests_app. cbn [do trace].
    rewrite trace_bind, requests_app, requests_princeDownloadURL.
    destruct (promise (eval answers (princeDownloadURL P))) as [| url | e] eqn:E;
      [reflexivity | | reflexivity].
    exfalso. exact (Hpending url eq_refl). }
  destruct (eval answers princeInfo) as [| prince | e];
    [exact Hrest | reflexivity | exact Hrest].
Qed.
End Resolver.

(** ** The resolver on Linux *)

(** C7. On Linux, when the probe reports CPU amd64 and distribution ubuntu,
    a version 14.x or 15.x, 16.x or 17.x, 18.x or 19.x, 20.x or 21.x
    resolves the promise to the tarball of its range, and the four tarballs
    differ; a version 20.x or 21.x gives
    prince-14-ubuntu20.04-amd64.tar.gz. *)
Theorem ubuntu_amd64_tarballs (answers : forall X, call X -> X) (P : process)
    (v : string) :
  platform P = "linux" ->
  eval answers (getLinuxOSInfo P) = Async (Fulfilled (ubuntu_amd64 v)) None ->
  (ubuntu_14_15 v = true ->
   eval answers (princeDownloadURL P) = resolved
     "https://www.princexml.com/download/prince-14-ubuntu14.04-amd64.tar.gz")
  /\ (ubuntu_16_17 v = true ->
      eval answers (princeDownloadURL P) = resolved
        "https://www.princexml.com/download/prince-14-ubuntu16.04-amd64.tar.gz")
  /\ (ubuntu_18_19 v = true ->
      eval answers (princeDownloadURL P) = resolved
        "https://www.princexml.com/download/prince-14-ubuntu18.04-amd64.tar.gz")
  /\ (ubuntu_20_21 v = true ->
      eval answers (princeDownloadURL P) = resolved
        "https://www.princexml.com/download/prince-14-ubuntu20.04-amd64.tar.gz")
  /\ NoDup [ download "-ubuntu14.04-amd64.tar.gz";
             download "-ubuntu16.04-amd64.tar.gz";
             download "-ubuntu18.04-amd64.tar.gz";
             download "-ubuntu20.04-amd64.tar.gz" ].
Proof.
  intros HP Hinfo. rewrite (eval_linux answers P _ HP Hinfo).
  unfold linux_arms, ubuntu_amd64, js_test.
  cbn [osName osCPUArch osVersion Js.show default]. unfold id.
  rewrite !bool_decide_eq_true_2 by reflexivity.
  unfold re_ubuntu_14_15, re_ubuntu_16_17, re_ubuntu_18_19, re_ubuntu_20_21.
  rewrite !version_re_spec.
  unfold ubuntu_14_15, ubuntu_16_17, ubuntu_18_19, ubuntu_20_21.
  repeat split.
  - intros ->. reflexivity.
  - intros H.
    rewrite (is_version_exclusive _ "1" _ [("4", "5")]%char v H)
      by (right; intros b Hb;
          destruct (in_ranges [("4", "5")]%char b) eqn:E; [| reflexivity];
          rewrite (class_45_67 b E) in Hb; discriminate).
    rewrite H. reflexivity.
  - intros H.
    rewrite (is_version_exclusive _ "1" _ [("4", "5")]%char v H)
      by (right; intros b Hb;
          destruct (in_ranges [("4", "5")]%char b) eqn:E; [| reflexivity];
          rewrite (class_45_89 b E) in Hb; discriminate).
    rewrite (is_version_exclusive _ "1" _ [("6", "7")]%char v H)
      by (right; intros b Hb;
          destruct (in_ranges [("6", "7")]%char b) eqn:E; [| reflexivity];
          rewrite (class_67_89 b E) in Hb; discriminate).
    rewrite H. reflexivity.
  - intros H.
    rewrite (is_version_exclusive _ "1" _ [("4", "5")]%char v H)
      by (left; discriminate).
    rewrite (is_version_exclusive _ "1" _ [("6", "7")]%char v H)
      by (left; discriminate).
    rewrite (is_version_exclusive _ "1" _ [("8", "9")]%char v H)
      by (left; discriminate).
    rewrite H. reflexivity.
  - apply (bool_decide_unpack _). vm_compute. exact I.
Qed.

Example version_20_21 :
  ubuntu_20_21 "20.04" = true /\ ubuntu_20_21 "21.10" = true
  /\ ubuntu_20_21 "20" = true /\ ubuntu_20_21 "22.04" = false
  /\ ubuntu_20_21 "20." = false /\ ubuntu_20_21 "120.04" = false.
Proof. repeat split. Qed.

(** Ubuntu 20.04 on amd64, as [shtool] prints it. *)
Lemma ubuntu_amd64_tarballs_witness :
  eval (Sample.host ("amd64-ubuntu20.04" ++ Sample.newline) Sample.vendor_tgz)
    (princeDownloadURL Sample.linux_box)
  = resolved
      "https://www.princexml.com/download/prince-14-ubuntu20.04-amd64.tar.gz".
Proof.
  apply (ubuntu_amd64_tarballs
           (Sample.host ("amd64-ubuntu20.04" ++ Sample.newline) Sample.vendor_tgz)
           Sample.linux_box "20.04"); reflexivity.
Defined.

(** C2. On Linux, when the probe reports a distribution that is not in the
    compatibility table (fedora, say), the promise of the resolver stays
    pending and no exception is raised: it does not settle with an error.
    [install] then makes no request. *)
Theorem fedora_leaves_promise_pending (answers : forall X, call X -> X)
    (P : process) (info : os_info) :
  platform P = "linux" ->
  eval answers (getLinuxOSInfo P) = Async (Fulfilled info) None ->
  in_table (osName info) = false ->
  eval answers (princeDownloadURL P) = Async Pending None
  /\ requests (trace answers (install P)) = [].
Proof.
  intros HP Hinfo Hname.
  assert (H : eval answers (princeDownloadURL P) = idle).
  { apply (linux_other_distro answers P info HP Hinfo).
    intros E. rewrite E in Hname. discriminate. }
  split; [exact H |].
  apply install_requests. intros url. rewrite H. discriminate.
Qed.

Lemma fedora_leaves_promise_pending_witness :
  eval (Sample.host "amd64-fedora34.0.0" Sample.vendor_tgz)
    (princeDownloadURL Sample.linux_box) = Async Pending None
  /\ requests (trace (Sample.host "amd64-fedora34.0.0" Sample.vendor_tgz)
                 (install Sample.linux_box)) = [].
Proof.
  apply (fedora_leaves_promise_pending
           (Sample.host "amd64-fedora34.0.0" Sample.vendor_tgz)
           Sample.linux_box
           (OsInfo (Some "amd64") (Some "fedora") (Some "34.0.0")));
    reflexivity.
Defined.

(** What [shtool] prints for a release without a minor number does not even
    match the pattern of the probe. *)
Example fedora_34_probe :
  eval (Sample.host "amd64-fedora34" Sample.vendor_tgz)
    (princeDownloadURL Sample.linux_box)
  = Async Pending (Some not_iterable).
Proof. reflexivity. Qed.

(** C3. On Windows, where [process.platform] is win32, the resolver does not
    reach its Windows case, spelled wind32: for every architecture the
    default case throws and the promise stays pending. *)
Theorem win32_is_not_wind32 (arch : string) (env : option string)
    (argv : list string) (dir : path) :
  princeDownloadURL (Process "win32" arch env argv dir)
  = Ret (Async Pending
           (Some (Err "Error"
                    ("Unsupported platform: " ++ quote ++ "win32" ++ quote)))).
Proof. reflexivity. Qed.

(** The case as it is spelled does what the claim says. *)
Example wind32_x64 (env : option string) (argv : list string) (dir : path) :
  princeDownloadURL (Process "wind32" "x64" env argv dir)
  = Ret (resolved "https://www.princexml.com/download/prince-14-win64-setup.exe").
Proof. reflexivity. Qed.

(** C4. On a Debian or CentOS host [process.platform] is linux, and
    [switch (osName)] has no case for either: whatever the architecture and
    the version, the promise stays pending.  The cases debian and centos are
    cases of [switch (platform)], where reading [osCPUArch] throws. *)
Theorem debian_centos_unreachable (answers : forall X, call X -> X)
    (P : process) (info : os_info) :
  (platform P = "linux" ->
   eval answers (getLinuxOSInfo P) = Async (Fulfilled info) None ->
   osName info = Some "debian" \/ osName info = Some "centos" ->
   eval answers (princeDownloadURL P) = Async Pending None)
  /\ (platform P = "debian" \/ platform P = "centos" ->
      princeDownloadURL P
      = Ret (Async Pending
               (Some (Err "ReferenceError" "osCPUArch is not defined")))).
Proof.
  split.
  - intros HP Hinfo Hname.
    apply (linux_other_distro answers P info HP Hinfo).
    destruct Hname as [-> | ->]; discriminate.
  - intros [H | H]; unfold princeDownloadURL; rewrite H; reflexivity.
Qed.

Lemma debian_centos_unreachable_witness :
  eval (Sample.host "amd64-debian10.11" Sample.vendor_tgz)
    (princeDownloadURL Sample.linux_box) = Async Pending None.
Proof.
  apply (proj1 (debian_centos_unreachable
                  (Sample.host "amd64-debian10.11" Sample.vendor_tgz)
                  Sample.linux_box
                  (OsInfo (Some "amd64") (Some "debian") (Some "10.11"))));
    [reflexivity | reflexivity | left; reflexivity].
Defined.

(** ** The resolver on macOS *)

(** C10. On macOS the resolver runs the probe of the Linux branch first.
    When what the probe prints does not match its pattern, destructuring the
    null match throws and the promise is never fulfilled; the promise is
    fulfilled only with the one macOS URL, and only when the output matched
    and the probe had no error; with a match and no error it is fulfilled
    with that URL, whatever the match holds. *)
Theorem macos_waits_for_linux_probe (answers : forall X, call X -> X)
    (P : process) :
  platform P = "darwin" ->
  let probe := answers _ (child_process_exec (shtool_command P)) in
  let m := exec true osRegex (Js.toLowerCase (snd probe)) in
  execs (trace answers (princeDownloadURL P)) = [shtool_command P]
  /\ (m = None ->
      eval answers (princeDownloadURL P) = Async Pending (Some not_iterable))
  /\ (forall url,
        promise (eval answers (princeDownloadURL P)) = Fulfilled url ->
        url = "https://www.princexml.com/download/prince-14-macos.zip"
        /\ is_Some m /\ fst probe = None)
  /\ (is_Some m -> fst probe = None ->
      eval answers (princeDownloadURL P) = resolved
        "https://www.princexml.com/download/prince-14-macos.zip").
Proof.
  intros HP probe m.
  rewrite (princeDownloadURL_darwin P HP).
  rewrite trace_bind, execs_app, (proj1 (trace_getLinuxOSInfo answers P)).
  rewrite eval_bind, eval_getLinuxOSInfo. fold probe.
  cbn [trace eval app]. unfold osInfoCallback. fold m.
  split; [reflexivity |].
  destruct m as [r |], (fst probe) as [e |]; cbn; (split; [| split]).
  all: try (intros; discriminate).
  all: try (intros _; reflexivity).
  all: try (intros url [= <-]; repeat split; eauto).
  all: try (intros [? [=]]).
  all: intros; reflexivity.
Qed.

Lemma macos_waits_for_linux_probe_witness :
  eval (Sample.host "Darwin" Sample.vendor_zip) (princeDownloadURL Sample.mac)
  = Async Pending (Some not_iterable).
Proof.
  apply (proj1 (proj2 (macos_waits_for_linux_probe
                         (Sample.host "Darwin" Sample.vendor_zip) Sample.mac
                         eq_refl))).
  reflexivity.
Defined.

(** ** The proxy of the downloader *)

Section Proxy.
Variable answers : forall X, call X -> X.
Variable P : process.

Lemma requests_options_proxy :
  requests (trace answers (options_proxy P)) = [].
Proof.
  unfold options_proxy.
  destruct (http_proxy P) as [proxy |];
    [destruct (negb (String.eqb proxy EmptyString)); [reflexivity |] |];
    cbn [bind do trace];
    destruct (answers _ _) as [[e |] stdout]; try reflexivity;
    destruct (test false re_proxy _); reflexivity.
Qed.

Lemma options_proxy_npm :
  http_proxy P = None \/ http_proxy P = Some EmptyString ->
  let npm := answers _ (child_process_exec "npm config get proxy") in
  let line := replace false re_eol EmptyString (snd npm) in
  execs (trace answers (options_proxy P)) = ["npm config get proxy"]
  /\ eval answers (options_proxy P)
     = if bool_decide (fst npm = None) && is_http_url line
       then Some line else None.
Proof.
  intros H npm line. unfold options_proxy.
  assert (Hnpm :
    forall p : prog (option string),
      p = (let* (error, stdout) :=
             do (child_process_exec "npm config get proxy") in
           match error with
           | None =>
               let stdout := replace false re_eol EmptyString stdout in
               if test false re_proxy stdout then
                 do (console_log
                       ("-- using proxy (npm config get proxy): " ++ stdout)) ;;;
                 Ret (Some stdout)
               else Ret None
           | Some _ => Ret None
           end) ->
      execs (trace answers p) = ["npm config get proxy"]
      /\ eval answers p
         = if bool_decide (fst npm = None) && is_http_url line
           then Some line else None).
  { intros p ->. cbn [bind do trace eval]. subst line npm.
    destruct (answers _ _) as [[e |] stdout]; cbn [fst snd];
      [split; reflexivity |].
    rewrite re_proxy_spec.
    destruct (is_http_url _); split; reflexivity. }
  destruct H as [-> | ->]; apply Hnpm; reflexivity.
Qed.
End Proxy.

(** C8. A non-empty [http_proxy] of the environment is the proxy, and then
    npm is not asked; when it is absent or empty npm is asked, and what it
    prints (less the line end) is the proxy when the command had no error and
    the line is an http or https URL; otherwise no proxy is set.  What is
    chosen is the proxy of the one request that [downloadData] makes. *)
Theorem proxy_precedence (answers : forall X, call X -> X) (P : process)
    (url : string) :
  (forall proxy, http_proxy P = Some proxy -> proxy <> EmptyString ->
     eval answers (options_proxy P) = Some proxy
     /\ execs (trace answers (options_proxy P)) = [])
  /\ (http_proxy P = None \/ http_proxy P = Some EmptyString ->
      let npm := answers _ (child_process_exec "npm config get proxy") in
      let line := replace false re_eol EmptyString (snd npm) in
      execs (trace answers (options_proxy P)) = ["npm config get proxy"]
      /\ eval answers (options_proxy P)
         = if bool_decide (fst npm = None) && is_http_url line
           then Some line else None)
  /\ requests (trace answers (downloadData P url))
     = [(url, eval answers (options_proxy P))].
Proof.
  split; [| split].
  - intros proxy H Hne. unfold options_proxy. rewrite H.
    destruct (String.eqb_spec proxy EmptyString) as [-> |]; [congruence |].
    split; reflexivity.
  - intros H npm line. destruct (options_proxy_npm answers P H) as [H1 H2].
    split; assumption.
  - unfold downloadData.
    rewrite trace_bind, requests_app, requests_options_proxy.
    cbn [bind do trace app].
    destruct (answers _ (request _ _)) as [[error statusCode] body].
    destruct (bool_decide (error = None) && (statusCode =? 200)%N);
      reflexivity.
Qed.

Lemma proxy_precedence_witness :
  eval Sample.both_proxies
    (options_proxy (Process "linux" "x64" (Some "http://env.example:8080")
                      [] Sample.here))
  = Some "http://env.example:8080"
  /\ eval Sample.both_proxies (options_proxy Sample.linux_box)
     = Some "http://npm.example:3128".
Proof.
  split.
  - apply (proj1 (proxy_precedence Sample.both_proxies
                    (Process "linux" "x64" (Some "http://env.example:8080")
                       [] Sample.here) EmptyString)
             "http://env.example:8080" eq_refl).
    discriminate.
  - apply (proj2 (proj1 (proj2 (proxy_precedence Sample.both_proxies Sample.linux_box
                                  EmptyString))
                    (or_introl eq_refl))).
Defined.

(** ** Unpacking *)

Ltac unfold_unpack :=
  unfold unpack_darwin, unpack_darwin_try, unpack_darwin_catch, unpack_linux,
    unpack_win32, createTmpDir, saveFileToDisk, unzipArchive, readDir,
    readFileStat, moveFiles, makePrinceExecutable, removeTmpDir,
    extractTarball, try_catch, checked, unguarded, awaited, piped, log,
    throw, uncaught, ret, bind_throws.


Section Darwin.
Variable answers : forall X, call X -> X.
Variable P : process.
Variable data : payload.




(** With two entries or more at the top, nothing is moved, nothing is
    thrown. *)
Lemma darwin_two_entries (tempDir : path) (files : list string) :
  answers _ (fs_mkdtemp (path_join (dirname P) ["tmp-"])) = inr tempDir ->
  write_passes answers (path_join tempDir ["prince.zip"]) data = true ->
  answers _ (unzip_Extract (path_join tempDir ["prince.zip"]) tempDir) = None ->
  answers _ (fs_unlinkSync (path_join tempDir ["prince.zip"])) = None ->
  answers _ (fs_readdir tempDir) = inr files ->
  2 <= List.length files ->
  answers _ (fs_rmdir (Some tempDir)) = None ->
  eval answers (unpack_darwin P data) = inr tt
  /\ renames (trace answers (unpack_darwin P data)) = []
  /\ chmods (trace answers (unpack_darwin P data)) = []
  /\ rmdirs (trace answers (unpack_darwin P data)) = [(Some tempDir, None)].
Proof.
  intros H1 Hw H2 H3 H4 Hlen H5. unfold_unpack.
  cbn [bind do eval trace]. rewrite H1.
  cbn [bind do eval trace]. unfold write_passes in Hw.
  destruct (answers _ (fs_writeFile _ _)) as [e |];
    cbn [bind do eval trace];
    [destruct (answers _ (unhandledRejection e)); [discriminate Hw |] |].
  all: cbn [bind do eval trace]; rewrite H2.
  all: cbn [bind do eval trace]; rewrite H3.
  all: cbn [bind do eval trace]; rewrite H4.
  all: destruct files as [| f [| f' files]]; cbn [List.length] in Hlen;
    try lia.
  all: cbn [bind do eval trace Nat.eqb List.length]; rewrite H5.
  all: repeat split.
Qed.

(** When [mkdtemp] fails, the one removal is that of [undefined]. *)
Lemma darwin_mkdtemp_fails (e : error) :
  answers _ (fs_mkdtemp (path_join (dirname P) ["tmp-"])) = inl e ->
  rmdirs (trace answers (unpack_darwin P data))
  = [(None, answers _ (fs_rmdir None))]
  /\ eval answers (unpack_darwin P data)
     = inl (Thrown (default e (answers _ (fs_rmdir None)))).
Proof.
  intros H. unfold_unpack. cbn [bind do eval trace]. rewrite H.
  cbn [bind do eval trace].
  destruct (answers _ (fs_rmdir None)); split; reflexivity.
Qed.
End Darwin.



Section Unpack.
Variable answers : forall X, call X -> X.
Variable P : process.
Variable data : payload.

Lemma unpack_darwin_case :
  platform P = "darwin" ->
  eval answers (unpack P data) = eval answers (unpack_darwin P data)
  /\ trace answers (unpack P data)
     = Event (console_log "++ locally unpacking PrinceXML distribution") tt
         :: trace answers (unpack_darwin P data).
Proof.
  intros H. unfold unpack. rewrite H.
  cbn [String.eqb Ascii.eqb Bool.eqb]. unfold log, bind_throws, ret.
  cbn [bind do eval trace].
  destruct (answers _ (console_log _)). split; reflexivity.
Qed.

End Unpack.

(** C1. On macOS, when the temporary directory holds two entries or more
    after unpacking (and the calls before it and the removal succeed; for
    the write of the archive, whose promise nobody holds, it is enough that
    it does not end the process), the unpacking ends without an exception:
    nothing is moved or made executable, and the temporary directory is
    removed. *)
Theorem two_entries_no_error (answers : forall X, call X -> X) (P : process)
    (data : payload) (tempDir : path) (files : list string) :
  platform P = "darwin" ->
  answers _ (fs_mkdtemp (path_join (dirname P) ["tmp-"])) = inr tempDir ->
  write_passes answers (path_join tempDir ["prince.zip"]) data = true ->
  answers _ (unzip_Extract (path_join tempDir ["prince.zip"]) tempDir) = None ->
  answers _ (fs_unlinkSync (path_join tempDir ["prince.zip"])) = None ->
  answers _ (fs_readdir tempDir) = inr files ->
  2 <= List.length files ->
  answers _ (fs_rmdir (Some tempDir)) = None ->
  eval answers (unpack P data) = inr tt
  /\ renames (trace answers (unpack P data)) = []
  /\ chmods (trace answers (unpack P data)) = []
  /\ rmdirs (trace answers (unpack P data)) = [(Some tempDir, None)].
Proof.
  intros HP H1 Hw H2 H3 H4 Hlen H5.
  destruct (unpack_darwin_case answers P data HP) as [-> ->].
  exact (darwin_two_entries answers P data tempDir files H1 Hw H2 H3 H4 Hlen
           H5).
Qed.

Lemma two_entries_no_error_witness :
  eval (Sample.staged ["prince-14-macos"; "__MACOSX"])
    (unpack Sample.mac Sample.finder_zip) = inr tt
  /\ renames (trace (Sample.staged ["prince-14-macos"; "__MACOSX"])
                (unpack Sample.mac Sample.finder_zip)) = []
  /\ chmods (trace (Sample.staged ["prince-14-macos"; "__MACOSX"])
               (unpack Sample.mac Sample.finder_zip)) = []
  /\ rmdirs (trace (Sample.staged ["prince-14-macos"; "__MACOSX"])
               (unpack Sample.mac Sample.finder_zip))
     = [(Some ["pkg"; "tmp-AbCdEf"], None)].
Proof.
  apply (two_entries_no_error (Sample.staged ["prince-14-macos"; "__MACOSX"])
           Sample.mac Sample.finder_zip ["pkg"; "tmp-AbCdEf"]
           ["prince-14-macos"; "__MACOSX"]);
    first [reflexivity | simpl; lia].
Defined.

(** The same on a disk: the whole of [install] ends without an error and
    leaves the disk as it found it. *)
Example finder_zip_installs_nothing :
  let r := run World.answer (install Sample.mac)
             (Sample.world_of "amd64-macosx11.2.3" Sample.finder_zip) in
  fst r = None /\ World.files (snd r) = Sample.fresh.
Proof. vm_compute. split; reflexivity. Qed.




(** C6. On macOS, when the temporary directory cannot be made, the catch
    block still asks for a removal, of [undefined]; the error of that call,
    when it has one, is what the unpacking throws in place of the first. *)
Theorem removal_of_unassigned_tempDir (answers : forall X, call X -> X)
    (P : process) (data : payload) (e : error) :
  platform P = "darwin" ->
  answers _ (fs_mkdtemp (path_join (dirname P) ["tmp-"])) = inl e ->
  rmdirs (trace answers (unpack P data)) = [(None, answers _ (fs_rmdir None))]
  /\ eval answers (unpack P data)
     = inl (Thrown (default e (answers _ (fs_rmdir None)))).
Proof.
  intros HP H.
  destruct (unpack_darwin_case answers P data HP) as [-> ->].
  exact (darwin_mkdtemp_fails answers P data e H).
Qed.

Lemma removal_of_unassigned_tempDir_witness :
  rmdirs (trace Sample.no_tmp (unpack Sample.mac Sample.vendor_zip))
  = [(None, Some World.invalid_path)]
  /\ eval Sample.no_tmp (unpack Sample.mac Sample.vendor_zip)
     = inl (Thrown World.invalid_path).
Proof.
  apply (removal_of_unassigned_tempDir Sample.no_tmp Sample.mac Sample.vendor_zip
           (World.errno "EACCES")); reflexivity.
Defined.

(** The same on a disk that cannot be written to. *)
Example read_only_disk :
  fst (run World.answer (unpack Sample.mac Sample.vendor_zip)
         (World.Make Sample.fresh [] Sample.read_only Sample.silent "AbCdEf"))
  = inl (Thrown World.invalid_path).
Proof. vm_compute. reflexivity. Qed.

(** ** uninstall *)

Section Disk.
Import World.

Lemma remove_tree_below (p q : path) (m : gmap path node) :
  p `prefix_of` q -> remove_tree p m !! q = None.
Proof.
  intros H. unfold remove_tree. apply map_lookup_filter_None.
  right. intros x _ Hn. apply Hn. exact H.
Qed.

Lemma remove_tree_beside (p q : path) (m : gmap path node) :
  ~ p `prefix_of` q -> remove_tree p m !! q = m !! q.
Proof.
  intros H. unfold remove_tree. rewrite map_lookup_filter.
  destruct (m !! q) as [x |]; [| reflexivity].
  cbn. rewrite option_guard_True by exact H. reflexivity.
Qed.

Lemma remove_tree_absent (p : path) (m : gmap path node) :
  exists_at (remove_tree p m) p = false.
Proof.
  unfold exists_at. rewrite remove_tree_below by reflexivity.
  apply bool_decide_eq_false. intros [x Hx]. discriminate.
Qed.

Lemma answer_console_log (msg : string) (w : world) :
  answer _ (console_log msg) w
  = (tt, Make (files w) (console w ++ [msg])%list (fault w) (outside w)
           (suffix w)).
Proof.
  unfold answer. destruct (fault w _ (console_log msg)); reflexivity.
Qed.

Lemma answer_existsSync (p : path) (w : world) :
  answer _ (fs_existsSync p) w = (exists_at (files w) p, w).
Proof.
  unfold answer. destruct (fault w _ (fs_existsSync p)); reflexivity.
Qed.

Lemma answer_rimraf (p : path) (w : world) :
  answer _ (rimraf p) w
  = match fault w _ (rimraf p) with
    | Some e => (Some e, w)
    | None => (None, with_files (remove_tree p (files w)) w)
    end.
Proof. reflexivity. Qed.

Section Uninstall.
Variable P : process.

(** Where the directory is absent, [uninstall] does nothing. *)
Lemma uninstall_absent (w : world) :
  exists_at (files w) (destdir P) = false ->
  run answer (uninstall P) w = (None, w).
Proof.
  intros H. unfold uninstall. cbn [bind do run].
  rewrite answer_existsSync, H. reflexivity.
Qed.

(** Where it is present and the removal is not refused, the directory goes
    with all below it. *)
Lemma uninstall_present (w : world) :
  exists_at (files w) (destdir P) = true ->
  fault w _ (rimraf (destdir P)) = None ->
  run answer (uninstall P) w
  = (None,
     Make (remove_tree (destdir P) (files w))
       (console w ++ ["++ deleting locally unpacked PrinceXML distribution";
                      "-- OK: done"])%list
       (fault w) (outside w) (suffix w)).
Proof.
  intros H Hf. unfold uninstall. cbn [bind do run].
  rewrite answer_existsSync, H. cbn [bind do run].
  rewrite answer_console_log, answer_rimraf.
  cbn [fault files console outside suffix]. rewrite Hf.
  cbn [bind do run]. rewrite answer_console_log.
  cbn [with_files fault files console outside suffix].
  rewrite <- app_assoc. reflexivity.
Qed.

(** No run of [uninstall] ends in an exception. *)
Lemma uninstall_never_throws (w : world) :
  fst (run answer (uninstall P) w) = None.
Proof.
  unfold uninstall. cbn [bind do run].
  rewrite answer_existsSync.
  destruct (exists_at (files w) (destdir P)); [| reflexivity].
  cbn [bind do run]. rewrite answer_console_log, answer_rimraf.
  cbn [fault files console outside suffix].
  destruct (fault w _ (rimraf (destdir P)));
    cbn [bind do run]; rewrite answer_console_log; reflexivity.
Qed.
End Uninstall.

(** C9, amended. [uninstall] never ends in an exception, on a first run or
    on a second.  Where the directory is absent it leaves the world as it is.
    Where the directory is present and the removal is not refused, the
    directory and all below it are gone and the rest of the disk is as it
    was.  A second run after a first whose removal was not refused changes
    nothing. *)
Theorem uninstall_idempotent (P : process) (w : world) :
  let once := run answer (uninstall P) w in
  let twice := run answer (uninstall P) (snd once) in
  fst once = None /\ fst twice = None
  /\ (exists_at (files w) (destdir P) = false -> snd once = w)
  /\ (exists_at (files w) (destdir P) = true ->
      fault w _ (rimraf (destdir P)) = None ->
      (forall q, destdir P `prefix_of` q -> files (snd once) !! q = None)
      /\ (forall q, ~ destdir P `prefix_of` q ->
          files (snd once) !! q = files w !! q))
  /\ (fault w _ (rimraf (destdir P)) = None -> snd twice = snd once).
Proof.
  intros once twice. subst twice once.
  split; [apply uninstall_never_throws |].
  split; [apply uninstall_never_throws |].
  split; [| split].
  - intros H. rewrite (uninstall_absent P w H). reflexivity.
  - intros H Hf. rewrite (uninstall_present P w H Hf). cbn [snd files].
    split; intros q Hq;
      [apply remove_tree_below | apply remove_tree_beside]; exact Hq.
  - intros Hf.
    destruct (exists_at (files w) (destdir P)) eqn:H.
    + rewrite (uninstall_present P w H Hf). cbn [snd].
      rewrite uninstall_absent; [reflexivity |].
      cbn [files]. apply remove_tree_absent.
    + rewrite (uninstall_absent P w H). cbn [snd].
      rewrite (uninstall_absent P w H). reflexivity.
Qed.

Lemma uninstall_idempotent_witness :
  exists_at (files Sample.installed) (destdir Sample.linux_box) = true
  /\ files (snd (run answer (uninstall Sample.linux_box) Sample.installed))
       !! destdir Sample.linux_box = None
  /\ snd (run answer (uninstall Sample.linux_box)
            (snd (run answer (uninstall Sample.linux_box) Sample.installed)))
     = snd (run answer (uninstall Sample.linux_box) Sample.installed).
Proof.
  split; [vm_compute; reflexivity |].
  split.
  - apply (proj1 (proj1 (proj2 (proj2 (proj2 (uninstall_idempotent
                                                 Sample.linux_box Sample.installed))))
                    ltac:(vm_compute; reflexivity) eq_refl)).
    reflexivity.
  - apply (proj2 (proj2 (proj2 (proj2 (uninstall_idempotent
                                          Sample.linux_box Sample.installed))))).
    reflexivity.
Defined.

(** The claim C9 as it is stated, refuted where the removal is refused: the
    directory is there before the first run and after it, the refusal is
    reported on the console, and the second run is no no-op: it asks for the
    removal and reports the refusal again. *)
Lemma refused_removal_is_repeated :
  let w := Make (files Sample.installed) [] Sample.read_only Sample.silent
             EmptyString in
  let once := run answer (uninstall Sample.linux_box) w in
  let twice := run answer (uninstall Sample.linux_box) (snd once) in
  exists_at (files w) (destdir Sample.linux_box) = true
  /\ fst once = None
  /\ exists_at (files (snd once)) (destdir Sample.linux_box) = true
  /\ console (snd once)
     = ["++ deleting locally unpacked PrinceXML distribution";
        "** ERROR: Error: EACCES"]
  /\ snd twice <> snd once
  /\ console (snd twice)
     = ["++ deleting locally unpacked PrinceXML distribution";
        "** ERROR: Error: EACCES";
        "++ deleting locally unpacked PrinceXML distribution";
        "** ERROR: Error: EACCES"].
Proof.
  intros w once twice.
  split; [vm_compute; reflexivity |].
  split; [vm_compute; reflexivity |].
  split; [vm_compute; reflexivity |].
  split; [vm_compute; reflexivity |].
  split; [| vm_compute; reflexivity].
  intros H. apply (f_equal console) in H. vm_compute in H. discriminate H.
Qed.

End Disk.

(** * More properties *)

(** ** What the resolver can answer *)

Ltac split_ifs :=
  repeat match goal with
         | |- context [if ?b then _ else _] => destruct b eqn:?
         end.

Lemma linux_arms_range (info : os_info) :
  promise (linux_arms info) = Pending
  \/ exists url, promise (linux_arms info) = Fulfilled url /\ url ∈ ubuntu_urls.
Proof.
  unfold linux_arms. split_ifs; cbn [promise resolved thrown idle];
    first [ left; reflexivity
          | right; eexists; split; [reflexivity |];
            apply (bool_decide_unpack _); vm_compute; exact I ].
Qed.

Lemma await_range {A : Type} (a : async A) (k : A -> async string)
    (urls : list string) :
  (forall v, promise (k v) = Pending
             \/ exists url, promise (k v) = Fulfilled url /\ url ∈ urls) ->
  promise (await a k) = Pending
  \/ exists url, promise (await a k) = Fulfilled url /\ url ∈ urls.
Proof.
  intros Hk. unfold await.
  destruct (escaped a); [left; reflexivity |].
  destruct (promise a); [left; reflexivity | apply Hk | left; reflexivity].
Qed.

(** The promise of the resolver stays pending or is fulfilled with a URL of
    the platform's list. *)
Lemma resolver_range (answers : forall X, call X -> X) (P : process) :
  promise (eval answers (princeDownloadURL P)) = Pending
  \/ exists url,
       promise (eval answers (princeDownloadURL P)) = Fulfilled url
       /\ ((platform P = "wind32" /\ url ∈ windows_urls)
           \/ (platform P = "darwin" /\ url = macos_url)
           \/ (platform P = "linux" /\ url ∈ ubuntu_urls)).
Proof.
  unfold princeDownloadURL.
  destruct (String.eqb_spec (platform P) "wind32") as [Hw |].
  { split_ifs; cbn [eval promise resolved thrown];
      first [ left; reflexivity
            | right; eexists; split; [reflexivity |]; left;
              split; [exact Hw |];
              apply (bool_decide_unpack _); vm_compute; exact I ]. }
  destruct (String.eqb_spec (platform P) "darwin") as [Hd |].
  { rewrite eval_bind. cbn [eval].
    destruct (await_range (eval answers (getLinuxOSInfo P))
                (fun _ => resolved (download "-macos.zip")) [macos_url])
      as [E | (url & E & Hin)].
    - intros _. right. exists macos_url. split; [reflexivity | left].
    - left. exact E.
    - right. exists url. split; [exact E |]. right. left.
      split; [exact Hd |]. apply list_elem_of_singleton in Hin. exact Hin. }
  destruct (String.eqb_spec (platform P) "linux") as [Hl |].
  { rewrite eval_bind. cbn [eval].
    destruct (await_range (eval answers (getLinuxOSInfo P)) linux_arms
                ubuntu_urls linux_arms_range) as [E | (url & E & Hin)].
    - left. exact E.
    - right. exists url. split; [exact E |]. right. right.
      split; [exact Hl | exact Hin]. }
  split_ifs; left; reflexivity.
Qed.

(** X1. The promise of the resolver is never rejected: it stays pending or
    is fulfilled, and then with a URL of the platform's list, on one of the
    platforms wind32, darwin and linux. *)
Theorem resolver_answers_from_its_table (answers : forall X, call X -> X)
    (P : process) :
  (forall e, promise (eval answers (princeDownloadURL P)) <> Rejected e)
  /\ (forall url,
        promise (eval answers (princeDownloadURL P)) = Fulfilled url ->
        (platform P = "wind32" /\ url ∈ windows_urls)
        \/ (platform P = "darwin" /\ url = macos_url)
        \/ (platform P = "linux" /\ url ∈ ubuntu_urls)).
Proof.
  pose proof (resolver_range answers P) as H.
  split.
  - intros e E. destruct H as [H | (url & H & _)]; rewrite H in E; discriminate.
  - intros url E. destruct H as [H | (url' & H & Hin)]; rewrite H in E.
    + discriminate.
    + injection E as <-. exact Hin.
Qed.

Lemma resolver_answers_from_its_table_witness :
  "https://www.princexml.com/download/prince-14-ubuntu20.04-amd64.tar.gz"
    ∈ ubuntu_urls.
Proof.
  destruct (proj2 (resolver_answers_from_its_table
                     (Sample.host "amd64-ubuntu20.04" Sample.vendor_tgz)
                     Sample.linux_box)
              "https://www.princexml.com/download/prince-14-ubuntu20.04-amd64.tar.gz"
              eq_refl) as [[H _] | [[H _] | [_ H]]].
  - discriminate H.
  - discriminate H.
  - exact H.
Defined.

(** ** Ubuntu beyond amd64 and beyond the ranges *)

Section Ubuntu.
Variable answers : forall X, call X -> X.
Variable P : process.
Variable v : string.
Hypothesis on_linux : platform P = "linux".

Lemma ubuntu_arms (cpu : string) :
  eval answers (getLinuxOSInfo P)
  = Async (Fulfilled (OsInfo (Some cpu) (Some "ubuntu") (Some v))) None ->
  eval answers (princeDownloadURL P)
  = if bool_decide (cpu = "amd64") then
      if ubuntu_14_15 v then resolved (download "-ubuntu14.04-amd64.tar.gz")
      else if ubuntu_16_17 v then resolved (download "-ubuntu16.04-amd64.tar.gz")
      else if ubuntu_18_19 v then resolved (download "-ubuntu18.04-amd64.tar.gz")
      else if ubuntu_20_21 v then resolved (download "-ubuntu20.04-amd64.tar.gz")
      else thrown (unknown_os_version (Some v))
    else if bool_decide (cpu = "ix86") then
      if ubuntu_14_15 v then resolved (download "-ubuntu14.04-i386.tar.gz")
      else if ubuntu_16_17 v then resolved (download "-ubuntu16.04-i386.tar.gz")
      else if ubuntu_18_19 v then resolved (download "-ubuntu18.04-i386.tar.gz")
      else thrown (unknown_os_version (Some v))
    else thrown (unsupported_architecture cpu).
Proof.
  intros Hinfo. rewrite (eval_linux answers P _ on_linux Hinfo).
  unfold linux_arms, js_test.
  cbn [osName osCPUArch osVersion Js.show default]. unfold id.
  rewrite bool_decide_eq_true_2 by reflexivity.
  unfold re_ubuntu_14_15, re_ubuntu_16_17, re_ubuntu_18_19, re_ubuntu_20_21.
  rewrite !version_re_spec.
  destruct (decide (cpu = "amd64")) as [-> | Ha].
  { rewrite !bool_decide_eq_true_2 by reflexivity. reflexivity. }
  rewrite (bool_decide_eq_false_2 (Some cpu = Some "amd64")) by congruence.
  rewrite (bool_decide_eq_false_2 (cpu = "amd64")) by exact Ha.
  destruct (decide (cpu = "ix86")) as [-> | Hi].
  { rewrite !bool_decide_eq_true_2 by reflexivity. reflexivity. }
  rewrite (bool_decide_eq_false_2 (Some cpu = Some "ix86")) by congruence.
  rewrite (bool_decide_eq_false_2 (cpu = "ix86")) by exact Hi.
  reflexivity.
Qed.
End Ubuntu.

Lemma ranges_14_16 v : ubuntu_14_15 v = true -> ubuntu_16_17 v = false.
Proof.
  intros H. apply (is_version_exclusive _ _ _ _ v H).
  right. apply class_45_67.
Qed.

Lemma ranges_14_18 v : ubuntu_14_15 v = true -> ubuntu_18_19 v = false.
Proof.
  intros H. apply (is_version_exclusive _ _ _ _ v H).
  right. apply class_45_89.
Qed.

Lemma ranges_16_18 v : ubuntu_16_17 v = true -> ubuntu_18_19 v = false.
Proof.
  intros H. apply (is_version_exclusive _ _ _ _ v H).
  right. apply class_67_89.
Qed.

Lemma ranges_20_1x v :
  ubuntu_20_21 v = true ->
  ubuntu_14_15 v = false /\ ubuntu_16_17 v = false /\ ubuntu_18_19 v = false.
Proof.
  intros H. repeat split;
    apply (is_version_exclusive _ _ _ _ v H); left; discriminate.
Qed.

(** X2. On Linux, when the probe reports CPU ix86 and distribution ubuntu,
    a version 14.x or 15.x, 16.x or 17.x, 18.x or 19.x resolves the promise
    to the i386 tarball of its range; a version 20.x or 21.x, which has a
    tarball for amd64, has none here: the resolver throws and the promise
    stays pending. *)
Theorem ubuntu_ix86_tarballs (answers : forall X, call X -> X) (P : process)
    (v : string) :
  platform P = "linux" ->
  eval answers (getLinuxOSInfo P)
  = Async (Fulfilled (OsInfo (Some "ix86") (Some "ubuntu") (Some v))) None ->
  (ubuntu_14_15 v = true ->
   eval answers (princeDownloadURL P) = resolved
     "https://www.princexml.com/download/prince-14-ubuntu14.04-i386.tar.gz")
  /\ (ubuntu_16_17 v = true ->
      eval answers (princeDownloadURL P) = resolved
        "https://www.princexml.com/download/prince-14-ubuntu16.04-i386.tar.gz")
  /\ (ubuntu_18_19 v = true ->
      eval answers (princeDownloadURL P) = resolved
        "https://www.princexml.com/download/prince-14-ubuntu18.04-i386.tar.gz")
  /\ (ubuntu_20_21 v = true ->
      eval answers (princeDownloadURL P)
      = Async Pending (Some (Err "Error" ("Unknown os version: " ++ v)))).
Proof.
  intros HP Hinfo. rewrite (ubuntu_arms answers P v HP "ix86" Hinfo).
  rewrite bool_decide_eq_false_2 by discriminate.
  rewrite bool_decide_eq_true_2 by reflexivity.
  repeat split.
  - intros ->. reflexivity.
  - intros H. destruct (ubuntu_14_15 v) eqn:E.
    + rewrite (ranges_14_16 v E) in H. discriminate.
    + rewrite H. reflexivity.
  - intros H. destruct (ubuntu_14_15 v) eqn:E.
    + rewrite (ranges_14_18 v E) in H. discriminate.
    + destruct (ubuntu_16_17 v) eqn:E'.
      * rewrite (ranges_16_18 v E') in H. discriminate.
      * rewrite H. reflexivity.
  - intros H. destruct (ranges_20_1x v H) as (-> & -> & ->). reflexivity.
Qed.

Lemma ubuntu_ix86_tarballs_witness :
  eval (Sample.host "ix86-ubuntu20.04" Sample.vendor_tgz)
    (princeDownloadURL Sample.linux_box)
  = Async Pending (Some (Err "Error" "Unknown os version: 20.04")).
Proof.
  apply (ubuntu_ix86_tarballs
           (Sample.host "ix86-ubuntu20.04" Sample.vendor_tgz)
           Sample.linux_box "20.04"); reflexivity.
Defined.

Section Install.
Variable answers : forall X, call X -> X.
Variable P : process.

(** When [prince] is not found and the promise of the resolver stays
    pending, [install] ends where the resolver does. *)
Lemma install_pending (reason : error) :
  eval answers princeInfo = Rejected reason ->
  promise (eval answers (princeDownloadURL P)) = Pending ->
  eval answers (install P) = escaped (eval answers (princeDownloadURL P)).
Proof.
  intros Hinfo Hp. unfold install.
  rewrite eval_bind. cbn [do eval]. rewrite eval_bind, Hinfo.
  rewrite eval_bind. cbn [do eval]. rewrite eval_bind, Hp. reflexivity.
Qed.
End Install.

(** X3. On Linux, when the probe reports ubuntu on amd64 with a version in
    none of the four ranges (12.04, 22.04, ...), the resolver throws
    "Unknown os version" with the version in its message and the promise
    stays pending; [install] makes no request and, where [prince] was not
    found, ends in that error. *)
Theorem ubuntu_unknown_version (answers : forall X, call X -> X)
    (P : process) (v : string) :
  platform P = "linux" ->
  eval answers (getLinuxOSInfo P) = Async (Fulfilled (ubuntu_amd64 v)) None ->
  ubuntu_14_15 v = false -> ubuntu_16_17 v = false ->
  ubuntu_18_19 v = false -> ubuntu_20_21 v = false ->
  eval answers (princeDownloadURL P)
  = Async Pending (Some (Err "Error" ("Unknown os version: " ++ v)))
  /\ requests (trace answers (install P)) = []
  /\ (forall reason, eval answers princeInfo = Rejected reason ->
      eval answers (install P)
      = Some (Err "Error" ("Unknown os version: " ++ v))).
Proof.
  intros HP Hinfo H14 H16 H18 H20.
  assert (H : eval answers (princeDownloadURL P)
              = Async Pending (Some (Err "Error" ("Unknown os version: " ++ v)))).
  { rewrite (ubuntu_arms answers P v HP "amd64" Hinfo).
    rewrite bool_decide_eq_true_2 by reflexivity.
    rewrite H14, H16, H18, H20. reflexivity. }
  split; [exact H |]. split.
  - apply install_requests. intros url. rewrite H. discriminate.
  - intros reason Hr. rewrite (install_pending answers P reason Hr); rewrite H;
      reflexivity.
Qed.

Lemma ubuntu_unknown_version_witness :
  eval (Sample.host "amd64-ubuntu22.04" Sample.vendor_tgz)
    (install Sample.linux_box)
  = Some (Err "Error" "Unknown os version: 22.04").
Proof.
  apply (proj2 (proj2 (ubuntu_unknown_version
                         (Sample.host "amd64-ubuntu22.04" Sample.vendor_tgz)
                         Sample.linux_box "22.04"
                         eq_refl eq_refl eq_refl eq_refl eq_refl eq_refl))
           (Str "prince(1) not found in PATH: Error: not found: prince")).
  reflexivity.
Defined.

(** X4. On Linux, when the probe reports ubuntu on a CPU other than amd64
    and ix86 (arm64, say), whatever the version, the resolver throws
    "Unsupported architecture" with the CPU quoted in its message, the
    promise stays pending and [install] makes no request. *)
Theorem ubuntu_unsupported_architecture (answers : forall X, call X -> X)
    (P : process) (cpu v : string) :
  platform P = "linux" ->
  eval answers (getLinuxOSInfo P)
  = Async (Fulfilled (OsInfo (Some cpu) (Some "ubuntu") (Some v))) None ->
  cpu <> "amd64" -> cpu <> "ix86" ->
  eval answers (princeDownloadURL P)
  = Async Pending
      (Some (Err "Error"
               ("Unsupported architecture: " ++ quote ++ cpu ++ quote)))
  /\ requests (trace answers (install P)) = [].
Proof.
  intros HP Hinfo Ha Hi.
  assert (H : eval answers (princeDownloadURL P)
              = thrown (unsupported_architecture cpu)).
  { rewrite (ubuntu_arms answers P v HP cpu Hinfo).
    rewrite !bool_decide_eq_false_2 by assumption. reflexivity. }
  split; [exact H |].
  apply install_requests. intros url. rewrite H. discriminate.
Qed.

Lemma ubuntu_unsupported_architecture_witness :
  eval (Sample.host "arm64-ubuntu20.04" Sample.vendor_tgz)
    (princeDownloadURL Sample.linux_box)
  = Async Pending
      (Some (Err "Error"
               ("Unsupported architecture: " ++ quote ++ "arm64" ++ quote))).
Proof.
  apply (ubuntu_unsupported_architecture
           (Sample.host "arm64-ubuntu20.04" Sample.vendor_tgz)
           Sample.linux_box "arm64" "20.04"); first [reflexivity | discriminate].
Defined.

(** ** The probe *)

(** X5. On Linux and on macOS, when the command of the probe ends with an
    error, the promise of the resolver is never fulfilled, whatever the
    command printed: with an output that matches, the error is thrown where
    the resolver waits; with one that does not, the TypeError of the
    destructuring escapes.  [install] makes no request. *)
Theorem probe_error_is_final (answers : forall X, call X -> X) (P : process)
    (e : error) :
  platform P = "linux" \/ platform P = "darwin" ->
  fst (answers _ (child_process_exec (shtool_command P))) = Some e ->
  let stdout := snd (answers _ (child_process_exec (shtool_command P))) in
  eval answers (princeDownloadURL P)
  = Async Pending
      (Some (match exec true osRegex (Js.toLowerCase stdout) with
             | Some _ => e
             | None => not_iterable
             end))
  /\ requests (trace answers (install P)) = [].
Proof.
  intros HP He stdout.
  assert (H : eval answers (princeDownloadURL P)
              = Async Pending
                  (Some (match exec true osRegex (Js.toLowerCase stdout) with
                         | Some _ => e
                         | None => not_iterable
                         end))).
  { destruct HP as [HP | HP];
      [rewrite (princeDownloadURL_linux P HP)
      | rewrite (princeDownloadURL_darwin P HP)];
      rewrite eval_bind, eval_getLinuxOSInfo, He; fold stdout;
      unfold osInfoCallback;
      destruct (exec true osRegex (Js.toLowerCase stdout)); reflexivity. }
  split; [exact H |].
  apply install_requests. intros url. rewrite H. discriminate.
Qed.

Lemma probe_error_is_final_witness :
  eval Scene.broken_shtool (princeDownloadURL Sample.mac)
  = Async Pending (Some not_iterable).
Proof.
  apply (proj1 (probe_error_is_final Scene.broken_shtool Sample.mac
                  (World.errno "Command failed") (or_intror eq_refl) eq_refl)).
Defined.

(** *** An output without a hyphen *)

Lemma upper_hyphen c :
  Ascii.eqb (Js.upper_char "-") (Js.upper_char c) = Ascii.eqb "-" c.
Proof. revert c. intros [[] [] [] [] [] [] [] []]; vm_compute; reflexivity. Qed.

Lemma lower_hyphen c : Ascii.eqb "-" (Js.lower_char c) = Ascii.eqb "-" c.
Proof. revert c. intros [[] [] [] [] [] [] [] []]; vm_compute; reflexivity. Qed.

Lemma occurs_toLowerCase s :
  occurs "-" (Js.toLowerCase s) = occurs "-" s.
Proof.
  induction s as [| c s IH]; [reflexivity |].
  cbn [Js.toLowerCase occurs]. rewrite lower_hyphen, IH. reflexivity.
Qed.

Lemma matcher_Dot_nil icase i caps c :
  matcher icase Dot (MState i EmptyString caps) c = None.
Proof. reflexivity. Qed.

Lemma matcher_Dot_cons icase i a s caps c :
  matcher icase Dot (MState i (String a s) caps) c
  = if negb (Js.line_terminator a) then c (MState (S i) s caps) else None.
Proof. reflexivity. Qed.

Section Hyphen.
(** [k] is a continuation that wants a hyphen first. *)
Variable k : mstate -> option mstate.
Hypothesis k_wants_hyphen :
  forall y, occurs "-" (rest y) = false -> k y = None.

Lemma any_run_without_hyphen fuel :
  forall x, occurs "-" (rest x) = false ->
    rounds (matcher true Dot) fuel 0 None x k = None.
Proof.
  induction fuel as [| fuel IH]; intros x Hx.
  - cbn [rounds]. apply k_wants_hyphen. exact Hx.
  - rewrite rounds_more. rewrite (k_wants_hyphen x Hx).
    destruct x as [i s caps]. cbn [rest idx RegExp.caps] in *.
    destruct s as [| a s]; [rewrite matcher_Dot_nil; reflexivity |].
    cbn [occurs] in Hx. apply orb_false_iff in Hx as [_ Hs].
    rewrite matcher_Dot_cons. cbn [idx].
    destruct (negb (Js.line_terminator a)); [| reflexivity].
    destruct (Nat.eqb (S i) i); [reflexivity |].
    rewrite IH by exact Hs. reflexivity.
Qed.
End Hyphen.

Lemma osRegex_needs_hyphen (x : mstate) :
  occurs "-" (rest x) = false -> matcher true osRegex x Some = None.
Proof.
  intros Hx. unfold osRegex. cbn [seq].
  cbn [matcher]. unfold step_char at 1.
  destruct x as [i s caps]. cbn [rest idx RegExp.caps] in *.
  destruct s as [| a s]; [reflexivity |].
  cbn [occurs] in Hx. apply orb_false_iff in Hx as [_ Hs].
  destruct (class_matches true _ a); [| reflexivity].
  change (matcher true (Star Dot) ?y ?c)
    with (rounds (matcher true Dot) (String.length (rest y)) 0 None y c).
  apply any_run_without_hyphen; [| exact Hs].
  intros y Hy. cbn [step_char rest idx RegExp.caps].
  destruct (rest y) as [| b t]; [reflexivity |].
  cbn [occurs] in Hy. apply orb_false_iff in Hy as [Hb _].
  unfold step_char at 1. cbn [rest]. unfold chr_matches.
  rewrite upper_hyphen, Hb. reflexivity.
Qed.

Lemma exec_needs_hyphen (s : string) :
  occurs "-" s = false -> exec true osRegex s = None.
Proof.
  unfold exec. generalize 0. induction s as [| a s IH]; intros i Hs.
  - cbn [exec_from]. rewrite osRegex_needs_hyphen by exact Hs. reflexivity.
  - cbn [exec_from]. rewrite osRegex_needs_hyphen by exact Hs.
    cbn [occurs] in Hs. apply orb_false_iff in Hs as [_ Hs].
    apply IH. exact Hs.
Qed.

(** X6. On Linux and on macOS, when the probe prints nothing, or anything
    without a hyphen, its pattern has no match: the TypeError of the
    destructuring escapes from the callback, the promise of the resolver
    stays pending and [install] makes no request. *)
Theorem probe_without_hyphen (answers : forall X, call X -> X) (P : process) :
  platform P = "linux" \/ platform P = "darwin" ->
  occurs "-" (snd (answers _ (child_process_exec (shtool_command P)))) = false ->
  eval answers (princeDownloadURL P) = Async Pending (Some not_iterable)
  /\ requests (trace answers (install P)) = [].
Proof.
  intros HP Hs.
  assert (H : eval answers (princeDownloadURL P)
              = Async Pending (Some not_iterable)).
  { destruct HP as [HP | HP];
      [rewrite (princeDownloadURL_linux P HP)
      | rewrite (princeDownloadURL_darwin P HP)];
      rewrite eval_bind, eval_getLinuxOSInfo; unfold osInfoCallback;
      rewrite exec_needs_hyphen by (rewrite occurs_toLowerCase; exact Hs);
      reflexivity. }
  split; [exact H |].
  apply install_requests. intros url. rewrite H. discriminate.
Qed.

Lemma probe_without_hyphen_witness :
  eval (Sample.host "sh: shtool: not found" Sample.vendor_tgz)
    (princeDownloadURL Sample.linux_box)
  = Async Pending (Some not_iterable).
Proof.
  apply (proj1 (probe_without_hyphen
                  (Sample.host "sh: shtool: not found" Sample.vendor_tgz)
                  Sample.linux_box (or_introl eq_refl) eq_refl)).
Defined.

(** ** install: the probe for an installed prince, and the download *)

Lemma logs_app t1 t2 : logs (t1 ++ t2)%list = (logs t1 ++ logs t2)%list.
Proof. apply calls_of_app. Qed.

Lemma execFiles_app t1 t2 :
  execFiles (t1 ++ t2)%list = (execFiles t1 ++ execFiles t2)%list.
Proof. apply calls_of_app. Qed.

Lemma disk_calls_app t1 t2 :
  disk_calls (t1 ++ t2)%list = (disk_calls t1 ++ disk_calls t2)%list.
Proof. apply calls_of_app. Qed.

Lemma unlinks_app t1 t2 :
  unlinks (t1 ++ t2)%list = (unlinks t1 ++ unlinks t2)%list.
Proof. apply calls_of_app. Qed.

Section Probe.
Variable answers : forall X, call X -> X.
Variable P : process.

(** What [princeInfo] leaves in a trace: no command line, no request, no
    call to the disk, no line on the console, and at most the version
    query. *)
Lemma trace_princeInfo :
  execs (trace answers princeInfo) = []
  /\ disk_calls (trace answers princeInfo) = []
  /\ logs (trace answers princeInfo) = []
  /\ Forall (fun fa => snd fa = ["--version"])
       (execFiles (trace answers princeInfo)).
Proof.
  unfold princeInfo. cbn [bind do trace].
  destruct (answers _ (which "prince")) as [e | filename];
    [repeat split; constructor |].
  cbn [bind do trace].
  destruct (answers _ _) as [[[e |] stdout] stderr];
    [repeat split; repeat constructor |].
  destruct (exec false re_banner stdout ≫= group 1);
    repeat split; repeat constructor.
Qed.

Lemma trace_resolver :
  disk_calls (trace answers (princeDownloadURL P)) = []
  /\ logs (trace answers (princeDownloadURL P)) = []
  /\ execFiles (trace answers (princeDownloadURL P)) = [].
Proof.
  unfold princeDownloadURL, getLinuxOSInfo.
  split_ifs; cbn [bind do trace];
    try destruct (answers _ (child_process_exec _)) as [error stdout];
    repeat split.
Qed.

Lemma trace_options_proxy :
  disk_calls (trace answers (options_proxy P)) = []
  /\ execFiles (trace answers (options_proxy P)) = [].
Proof.
  unfold options_proxy.
  destruct (http_proxy P) as [proxy |];
    [destruct (negb (String.eqb proxy EmptyString)); [split; reflexivity |] |];
    cbn [bind do trace];
    destruct (answers _ _) as [[e |] stdout]; try (split; reflexivity);
    destruct (test false re_proxy _); split; reflexivity.
Qed.

Lemma trace_downloadData (url : string) :
  disk_calls (trace answers (downloadData P url)) = []
  /\ execFiles (trace answers (downloadData P url)) = [].
Proof.
  unfold downloadData.
  rewrite trace_bind, disk_calls_app, execFiles_app.
  rewrite (proj1 trace_options_proxy), (proj2 trace_options_proxy).
  cbn [bind do trace app].
  destruct (answers _ (request _ _)) as [[error statusCode] body].
  destruct (bool_decide (error = None) && (statusCode =? 200)%N);
    split; reflexivity.
Qed.
End Probe.

(** X7. When [prince] is on the path and answers its version query with a
    banner, [install] stops there: it reports the command and the version
    and ends without an error, having run no other command, made no request
    and touched nothing on the disk. *)
Theorem install_stops_at_installed_prince (answers : forall X, call X -> X)
    (P : process) (info : prince_info) :
  eval answers princeInfo = Fulfilled info ->
  eval answers (install P) = None
  /\ logs (trace answers (install P))
     = [ "++ checking for globally installed PrinceXML";
         "-- found prince(1) command: " ++ command info;
         "-- found prince(1) version: " ++ version info ]
  /\ execs (trace answers (install P)) = []
  /\ requests (trace answers (install P)) = []
  /\ disk_calls (trace answers (install P)) = [].
Proof.
  intros Hinfo. unfold install.
  rewrite eval_bind, trace_bind. cbn [do eval trace app].
  rewrite eval_bind, trace_bind, Hinfo. cbn [bind do eval trace].
  destruct (trace_princeInfo answers) as (He & Hd & Hl & _).
  repeat split.
  - change (logs (?e :: ?t)) with (logs ([e] ++ t)%list).
    rewrite logs_app, logs_app, Hl. reflexivity.
  - change (execs (?e :: ?t)) with (execs ([e] ++ t)%list).
    rewrite execs_app, execs_app, He. reflexivity.
  - change (requests (?e :: ?t)) with (requests ([e] ++ t)%list).
    rewrite requests_app, requests_app, requests_princeInfo. reflexivity.
  - change (disk_calls (?e :: ?t)) with (disk_calls ([e] ++ t)%list).
    rewrite disk_calls_app, disk_calls_app, Hd. reflexivity.
Qed.

Lemma install_stops_at_installed_prince_witness :
  eval Scene.with_prince (install Sample.linux_box) = None
  /\ logs (trace Scene.with_prince (install Sample.linux_box))
     = [ "++ checking for globally installed PrinceXML";
         "-- found prince(1) command: /usr/bin/prince";
         "-- found prince(1) version: 14.2" ].
Proof.
  destruct (install_stops_at_installed_prince Scene.with_prince
              Sample.linux_box (PrinceInfo "/usr/bin/prince" "14.2") eq_refl)
    as (H1 & H2 & _).
  split; [exact H1 | exact H2].
Defined.

(** X8. [downloadData] makes one request, whatever comes back, and touches
    nothing on the disk.  Its promise is fulfilled with the body when there
    is no error and the status is 200, and rejected otherwise; for a status
    other than 200 without an error the reason reads "download failed:
    null". *)
Theorem download_settles_once (answers : forall X, call X -> X) (P : process)
    (url : string) :
  let proxy := eval answers (options_proxy P) in
  let response := answers _ (request url proxy) in
  requests (trace answers (downloadData P url)) = [(url, proxy)]
  /\ disk_calls (trace answers (downloadData P url)) = []
  /\ (forall body, response = (None, 200%N, body) ->
      eval answers (downloadData P url) = Fulfilled body)
  /\ (forall statusCode body,
        response = (None, statusCode, body) -> statusCode <> 200%N ->
        eval answers (downloadData P url)
        = Rejected (Str "download failed: null"))
  /\ (forall e statusCode body, response = (Some e, statusCode, body) ->
      eval answers (downloadData P url)
      = Rejected (Str ("download failed: " ++ show_error e))).
Proof.
  intros proxy response. subst proxy response.
  split; [| split; [apply trace_downloadData |]].
  - unfold downloadData.
    rewrite trace_bind, requests_app, requests_options_proxy.
    cbn [bind do trace app].
    destruct (answers _ (request _ _)) as [[error statusCode] body].
    destruct (bool_decide (error = None) && (statusCode =? 200)%N);
      reflexivity.
  - unfold downloadData. rewrite eval_bind. cbn [bind do eval].
    repeat split.
    + intros body ->. reflexivity.
    + intros statusCode body -> Hs. cbn [bind do eval].
      apply N.eqb_neq in Hs. rewrite Hs. reflexivity.
    + intros e statusCode body ->. reflexivity.
Qed.

Lemma download_settles_once_witness :
  eval (Scene.not_found "amd64-ubuntu20.04")
    (downloadData Sample.linux_box "https://www.princexml.com/x")
  = Rejected (Str "download failed: null").
Proof.
  apply (proj1 (proj2 (proj2 (proj2 (download_settles_once
                                       (Scene.not_found "amd64-ubuntu20.04")
                                       Sample.linux_box
                                       "https://www.princexml.com/x"))))
           404%N (Payload "Not Found" None) eq_refl).
  discriminate.
Defined.

(** X9. When the download fails, [install] reports it on the console and
    ends without an exception, and nothing has been written, made or
    removed on the disk. *)
Theorem failed_download_leaves_disk (answers : forall X, call X -> X)
    (P : process) (reason : error) (url : string) (why : error) :
  eval answers princeInfo = Rejected reason ->
  promise (eval answers (princeDownloadURL P)) = Fulfilled url ->
  eval answers (downloadData P url) = Rejected why ->
  eval answers (install P) = None
  /\ disk_calls (trace answers (install P)) = []
  /\ List.last (logs (trace answers (install P))) EmptyString
     = "** ERROR: failed to download: " ++ show_error why.
Proof.
  intros Hinfo Hurl Hdata. unfold install.
  rewrite eval_bind, trace_bind. cbn [do eval trace app].
  rewrite eval_bind, trace_bind, Hinfo.
  rewrite eval_bind, trace_bind. cbn [do eval trace app].
  rewrite eval_bind, trace_bind, Hurl.
  rewrite eval_bind, trace_bind, Hdata. cbn [bind do eval trace].
  destruct (trace_princeInfo answers) as (_ & Hd & _ & _).
  destruct (trace_resolver answers P) as (Hr & _ & _).
  destruct (trace_downloadData answers P url) as (Hdl & _).
  repeat split.
  - change (disk_calls (?e :: ?t)) with (disk_calls ([e] ++ t)%list).
    rewrite !disk_calls_app, Hd. cbn [app].
    change (disk_calls (?e :: ?t)) with (disk_calls ([e] ++ t)%list).
    rewrite !disk_calls_app, Hr, Hdl. reflexivity.
  - change (logs (?e :: ?t)) with (logs ([e] ++ t)%list).
    rewrite !logs_app. cbn [app].
    change (logs (?e :: ?t)) with (logs ([e] ++ t)%list).
    rewrite !logs_app.
    rewrite !app_assoc. apply last_last.
Qed.

Lemma failed_download_leaves_disk_witness :
  eval (Scene.not_found "amd64-ubuntu20.04") (install Sample.linux_box) = None
  /\ disk_calls (trace (Scene.not_found "amd64-ubuntu20.04")
                   (install Sample.linux_box)) = [].
Proof.
  destruct (failed_download_leaves_disk (Scene.not_found "amd64-ubuntu20.04")
              Sample.linux_box
              (Str "prince(1) not found in PATH: Error: not found: prince")
              "https://www.princexml.com/download/prince-14-ubuntu20.04-amd64.tar.gz"
              (Str "download failed: null") eq_refl eq_refl eq_refl)
    as (H1 & H2 & _).
  split; [exact H1 | exact H2].
Defined.

(** ** Unpacking, path by path *)

(** Going down every path of a program: each answer is taken apart where the
    program looks at it. *)
Ltac answer_cases answers :=
  match goal with
  | |- context [answers ?X ?c] =>
      let E := fresh "E" in destruct (answers X c) eqn:E
  | |- context [match ?l with [] => _ | _ :: _ => _ end] =>
      is_var l; destruct l
  | |- context [match ?s with Heard _ => _ | Unheard _ => _ end] =>
      is_var s; destruct s
  | |- context [if negb ?b then _ else _] => is_var b; destruct b
  | |- context [if ?b then _ else _] => is_var b; destruct b
  | |- context [let '(_, _) := ?p in _] => is_var p; destruct p
  end.

Ltac all_paths answers :=
  unfold_unpack;
  repeat (cbn [bind do eval trace negb Nat.eqb List.length];
          try answer_cases answers).

Section Paths.
Variable answers : forall X, call X -> X.
Variable P : process.
Variable data : payload.

Lemma execFiles_unpack_darwin :
  execFiles (trace answers (unpack_darwin P data)) = [].
Proof. all_paths answers; reflexivity. Qed.

Lemma execFiles_unpack_linux :
  execFiles (trace answers (unpack_linux P data)) = [].
Proof. all_paths answers; reflexivity. Qed.

(** The installer is run on the platform win32 alone. *)
Lemma execFiles_unpack :
  platform P <> "win32" -> execFiles (trace answers (unpack P data)) = [].
Proof.
  intros HP. unfold unpack.
  destruct (String.eqb_spec (platform P) "win32") as [E |]; [congruence |].
  unfold log at 1. unfold bind_throws at 1, ret.
  cbn [bind do trace]. destruct (answers _ (console_log _)).
  change (execFiles (?e :: ?t)) with (execFiles ([e] ++ t)%list).
  rewrite execFiles_app. cbn [app].
  split_ifs.
  - apply execFiles_unpack_darwin.
  - apply execFiles_unpack_linux.
  - unfold log, bind_throws, ret. cbn [bind do trace]. reflexivity.
Qed.
End Paths.

(** X10. [install] never runs the Windows installer: the one program it
    ever starts with [execFile] is [prince] with the argument [--version].
    On win32 the resolver has no URL, and on the platforms where it has one
    the unpacking does not take the Windows path. *)
Theorem install_never_runs_the_installer (answers : forall X, call X -> X)
    (P : process) :
  Forall (fun fa => snd fa = ["--version"])
    (execFiles (trace answers (install P))).
Proof.
  unfold install.
  rewrite trace_bind, execFiles_app. cbn [do trace]. apply Forall_app.
  split; [constructor |].
  rewrite trace_bind, execFiles_app. apply Forall_app.
  split; [apply trace_princeInfo |].
  assert (Hrest :
    execFiles (trace answers
      (do (console_log "++ downloading PrinceXML distribution") ;;;
       let* url := princeDownloadURL P in
       match promise url with
       | Fulfilled url =>
           let* data := downloadData P url in
           match data with
           | Fulfilled data =>
               let* unpacked := unpack P data in
               match unpacked with
               | inl raised => Ret (Some (exception raised))
               | inr _ => Ret None
               end
           | Rejected error =>
               do (console_log ("** ERROR: failed to download: "
                                  ++ show_error error)) ;;;
               Ret None
           | Pending => Ret None
           end
       | _ => Ret (escaped url)
       end)) = []).
  { rewrite trace_bind, execFiles_app. cbn [do trace].
    rewrite trace_bind, execFiles_app.
    rewrite (proj2 (proj2 (trace_resolver answers P))).
    destruct (resolver_range answers P) as [E | (url & E & Hurl)];
      rewrite E; [reflexivity |].
    rewrite trace_bind, execFiles_app.
    rewrite (proj2 (trace_downloadData answers P url)).
    destruct (eval answers (downloadData P url)) as [| body | e];
      try reflexivity.
    rewrite trace_bind, execFiles_app, execFiles_unpack.
    - destruct (eval answers (unpack P body)); reflexivity.
    - destruct Hurl as [[H _] | [[H _] | [H _]]]; rewrite H; discriminate. }
  destruct (eval answers princeInfo); rewrite ?Hrest; constructor.
Qed.

(** ** Unpacking on Linux *)

Section Cases.
Variable answers : forall X, call X -> X.
Variable P : process.
Variable data : payload.

Lemma unpack_first_line (body : throws unit) :
  eval answers (log "++ locally unpacking PrinceXML distribution" ;;! body)
  = eval answers body
  /\ trace answers (log "++ locally unpacking PrinceXML distribution" ;;! body)
     = Event (console_log "++ locally unpacking PrinceXML distribution") tt
         :: trace answers body.
Proof.
  unfold log, bind_throws, ret. cbn [bind do eval trace].
  destruct (answers _ (console_log _)). split; reflexivity.
Qed.

Lemma unpack_on_linux :
  platform P = "linux" ->
  eval answers (unpack P data) = eval answers (unpack_linux P data)
  /\ trace answers (unpack P data)
     = Event (console_log "++ locally unpacking PrinceXML distribution") tt
         :: trace answers (unpack_linux P data).
Proof. intros H. unfold unpack. rewrite H. apply unpack_first_line. Qed.

Lemma linux_outcomes :
  let tarball := path_join (dirname P) ["prince.tgz"] in
  answers _ (fs_writeFileSync tarball data) = None ->
  answers _ (mkdirp_sync (destdir P)) = None ->
  untars (trace answers (unpack_linux P data)) = [(tarball, destdir P, 1)]
  /\ (forall e,
        answers _ (tar_extract tarball (destdir P) 1) = Some (Heard e) ->
        eval answers (unpack_linux P data) = inr tt
        /\ unlinks (trace answers (unpack_linux P data)) = []
        /\ logs (trace answers (unpack_linux P data))
           = ["** ERROR: failed to extract: " ++ show_error e])
  /\ (forall e,
        answers _ (tar_extract tarball (destdir P) 1) = Some (Unheard e) ->
        eval answers (unpack_linux P data) = inl (Uncaught e)
        /\ unlinks (trace answers (unpack_linux P data)) = []
        /\ logs (trace answers (unpack_linux P data)) = [])
  /\ (answers _ (tar_extract tarball (destdir P) 1) = None ->
      unlinks (trace answers (unpack_linux P data))
      = [(tarball, answers _ (fs_unlinkSync tarball))]
      /\ (answers _ (fs_unlinkSync tarball) = None ->
          eval answers (unpack_linux P data) = inr tt
          /\ logs (trace answers (unpack_linux P data)) = [ok_message])
      /\ (forall e, answers _ (fs_unlinkSync tarball) = Some e ->
          eval answers (unpack_linux P data) = inl (Thrown e)
          /\ logs (trace answers (unpack_linux P data)) = [])).
Proof.
  intros tarball Hw Hm. subst tarball. unfold_unpack.
  cbn [bind do eval trace]. rewrite Hw.
  cbn [bind do eval trace]. rewrite Hm.
  cbn [bind do eval trace].
  destruct (answers _ (tar_extract _ _ _)) as [[e | e] |];
    cbn [bind do eval trace].
  - destruct (answers _ (console_log _)).
    split; [reflexivity |]. split; [| split; [intros e' [=] | intros [=]]].
    intros e' [= <-]. repeat split.
  - split; [reflexivity |]. split; [intros e' [=] |].
    split; [| intros [=]]. intros e' [= <-]. repeat split.
  - destruct (answers _ (fs_unlinkSync _)) as [e |];
      cbn [bind do eval trace].
    + split; [reflexivity |]. split; [intros e' [=] |].
      split; [intros e' [=] |]. intros _.
      split; [reflexivity |]. split; [intros [=] |].
      intros e' [= <-]. split; reflexivity.
    + destruct (answers _ (console_log _)).
      split; [reflexivity |]. split; [intros e' [=] |].
      split; [intros e' [=] |]. intros _.
      split; [reflexivity |]. split; [| intros e [=]].
      intros _. split; reflexivity.
Qed.
End Cases.

(** X11. On Linux, once the tarball is written and the directory made, the
    tarball is unpacked into the directory with one leading segment
    stripped, and what follows turns on how the pipeline ends.  An error of
    [tar.extract], the stream with the listener, is reported on the console
    and nothing is thrown; [prince.tgz] is not removed.  An error of the
    read stream or of gunzip has no listener: the process ends on it, with
    nothing reported, nothing removed and nothing announced.  A tarball
    that unpacks is removed afterwards, and only then is the installation
    announced; an error of that removal is thrown and nothing is
    announced. *)
Theorem linux_unpacking_outcomes (answers : forall X, call X -> X)
    (P : process) (data : payload) :
  platform P = "linux" ->
  let tarball := path_join (dirname P) ["prince.tgz"] in
  let t := trace answers (unpack P data) in
  answers _ (fs_writeFileSync tarball data) = None ->
  answers _ (mkdirp_sync (destdir P)) = None ->
  untars t = [(tarball, destdir P, 1)]
  /\ (forall e,
        answers _ (tar_extract tarball (destdir P) 1) = Some (Heard e) ->
        eval answers (unpack P data) = inr tt
        /\ unlinks t = []
        /\ logs t = [ "++ locally unpacking PrinceXML distribution";
                      "** ERROR: failed to extract: " ++ show_error e ])
  /\ (forall e,
        answers _ (tar_extract tarball (destdir P) 1) = Some (Unheard e) ->
        eval answers (unpack P data) = inl (Uncaught e)
        /\ unlinks t = []
        /\ logs t = ["++ locally unpacking PrinceXML distribution"])
  /\ (answers _ (tar_extract tarball (destdir P) 1) = None ->
      unlinks t = [(tarball, answers _ (fs_unlinkSync tarball))]
      /\ (answers _ (fs_unlinkSync tarball) = None ->
          eval answers (unpack P data) = inr tt
          /\ List.last (logs t) EmptyString
             = "-- OK: local PrinceXML installation now available")
      /\ (forall e, answers _ (fs_unlinkSync tarball) = Some e ->
          eval answers (unpack P data) = inl (Thrown e)
          /\ ~ In "-- OK: local PrinceXML installation now available" (logs t))).
Proof.
  intros HP tarball t Hw Hm. subst t.
  destruct (unpack_on_linux answers P data HP) as [-> ->].
  destruct (linux_outcomes answers P data Hw Hm) as (H1 & H2 & H3 & H4).
  split; [exact H1 |]. split; [| split].
  - intros e He. destruct (H2 e He) as (Ha & Hb & Hc).
    split; [exact Ha |]. split; [exact Hb |].
    change (logs (?e :: ?t)) with (logs ([e] ++ t)%list).
    rewrite logs_app, Hc. reflexivity.
  - intros e He. destruct (H3 e He) as (Ha & Hb & Hc).
    split; [exact Ha |]. split; [exact Hb |].
    change (logs (?e :: ?t)) with (logs ([e] ++ t)%list).
    rewrite logs_app, Hc. reflexivity.
  - intros Ht. destruct (H4 Ht) as (Ha & Hb & Hc).
    split; [exact Ha |]. split.
    + intros Hu. destruct (Hb Hu) as [Hb1 Hb2]. split; [exact Hb1 |].
      change (logs (?e :: ?t)) with (logs ([e] ++ t)%list).
      rewrite logs_app, Hb2. reflexivity.
    + intros e He. destruct (Hc e He) as [Hc1 Hc2]. split; [exact Hc1 |].
      change (logs (?e :: ?t)) with (logs ([e] ++ t)%list).
      rewrite logs_app, Hc2. cbn. intros [H | []]. discriminate H.
Qed.

Lemma linux_unpacking_outcomes_witness :
  (eval Scene.bad_tarball (unpack Sample.linux_box Sample.vendor_tgz)
   = inl (Uncaught (World.errno "incorrect header check"))
   /\ logs (trace Scene.bad_tarball
              (unpack Sample.linux_box Sample.vendor_tgz))
      = ["++ locally unpacking PrinceXML distribution"])
  /\ (eval Scene.bad_archive (unpack Sample.linux_box Sample.vendor_tgz)
      = inr tt
      /\ unlinks (trace Scene.bad_archive
                    (unpack Sample.linux_box Sample.vendor_tgz)) = []).
Proof.
  split.
  - destruct (proj1 (proj2 (proj2 (linux_unpacking_outcomes Scene.bad_tarball
                                     Sample.linux_box Sample.vendor_tgz
                                     eq_refl eq_refl eq_refl)))
                (World.errno "incorrect header check") eq_refl)
      as (H1 & _ & H3).
    split; [exact H1 | exact H3].
  - destruct (proj1 (proj2 (linux_unpacking_outcomes Scene.bad_archive
                              Sample.linux_box Sample.vendor_tgz
                              eq_refl eq_refl eq_refl))
                (Err "Error" "TAR_BAD_ARCHIVE: Unrecognized archive format")
                eq_refl)
      as (H1 & H2 & _).
    split; [exact H1 | exact H2].
Defined.

(** ** Unpacking on macOS *)

Section Zip.
Variable answers : forall X, call X -> X.
Variable P : process.
Variable data : payload.

Ltac member_cases H :=
  repeat (apply elem_of_cons in H as [H | H]);
  try (apply elem_of_nil in H as []).

Lemma darwin_rename_guard (source dest : path) (r : option error) :
  (source, dest, r) ∈ renames (trace answers (unpack_darwin P data)) ->
  exists tempDir fName,
    answers _ (fs_mkdtemp (path_join (dirname P) ["tmp-"])) = inr tempDir
    /\ answers _ (fs_readdir tempDir) = inr [fName]
    /\ answers _ (fs_stat (path_join tempDir [fName])) = inr true
    /\ source = path_join tempDir [fName]
    /\ dest = destdir P.
Proof.
  all_paths answers.
  all: unfold renames, calls_of; cbn [omap list_omap].
  all: intros H; member_cases H.
  all: injection H as -> -> _.
  all: eexists _, _; repeat split; eassumption.
Qed.


Lemma darwin_layout (tempDir : path) :
  answers _ (fs_mkdtemp (path_join (dirname P) ["tmp-"])) = inr tempDir ->
  write_passes answers (path_join tempDir ["prince.zip"]) data = true ->
  answers _ (unzip_Extract (path_join tempDir ["prince.zip"]) tempDir) = None ->
  answers _ (fs_unlinkSync (path_join tempDir ["prince.zip"])) = None ->
  answers _ (fs_rmdir (Some tempDir)) = None ->
  (answers _ (fs_readdir tempDir) = inr [] ->
   eval answers (unpack_darwin P data)
   = inl (Thrown (Err "Error" ("No files found in the temp directory: "
                                 ++ show_path tempDir)))
   /\ renames (trace answers (unpack_darwin P data)) = [])
  /\ (forall fName,
        answers _ (fs_readdir tempDir) = inr [fName] ->
        answers _ (fs_stat (path_join tempDir [fName])) = inr false ->
        eval answers (unpack_darwin P data)
        = inl (Thrown
                 (Err "Error"
                    "Found one file in the temp directory. Expected a directory"))
        /\ renames (trace answers (unpack_darwin P data)) = []).
Proof.
  intros H1 Hw H2 H3 H4. unfold_unpack.
  cbn [bind do eval trace]. rewrite H1.
  cbn [bind do eval trace]. unfold write_passes in Hw.
  destruct (answers _ (fs_writeFile _ _)) as [e |];
    cbn [bind do eval trace];
    [destruct (answers _ (unhandledRejection e)); [discriminate Hw |] |].
  all: cbn [bind do eval trace]; rewrite H2.
  all: cbn [bind do eval trace]; rewrite H3.
  all: cbn [bind do eval trace].
  all: split;
    [ intros ->; cbn [bind do eval trace Nat.eqb List.length]; rewrite H4;
      split; reflexivity
    | intros fName -> Hs; cbn [bind do eval trace Nat.eqb List.length];
      rewrite Hs; cbn [bind do eval trace negb]; rewrite H4;
      split; reflexivity ].
Qed.
End Zip.

(** X12. On macOS something is moved only when the temporary directory
    holds exactly one entry and that entry is a directory: what is moved is
    that entry, and where to is the destination directory. *)
Theorem darwin_moves_one_directory (answers : forall X, call X -> X)
    (P : process) (data : payload) (source dest : path) (r : option error) :
  platform P = "darwin" ->
  (source, dest, r) ∈ renames (trace answers (unpack P data)) ->
  exists tempDir fName,
    answers _ (fs_mkdtemp (path_join (dirname P) ["tmp-"])) = inr tempDir
    /\ answers _ (fs_readdir tempDir) = inr [fName]
    /\ answers _ (fs_stat (path_join tempDir [fName])) = inr true
    /\ source = path_join tempDir [fName]
    /\ dest = destdir P.
Proof.
  intros HP. destruct (unpack_darwin_case answers P data HP) as [_ ->].
  change (renames (?e :: ?t)) with (renames ([e] ++ t)%list).
  rewrite renames_app. cbn [app]. apply darwin_rename_guard.
Qed.

Lemma darwin_moves_one_directory_witness :
  exists tempDir fName,
    Sample.staged ["prince-14-macos"] _
      (fs_mkdtemp (path_join (dirname Sample.mac) ["tmp-"])) = inr tempDir
    /\ Sample.staged ["prince-14-macos"] _ (fs_readdir tempDir) = inr [fName].
Proof.
  destruct (darwin_moves_one_directory (Sample.staged ["prince-14-macos"])
              Sample.mac Sample.vendor_zip
              ["pkg"; "tmp-AbCdEf"; "prince-14-macos"] ["pkg"; "prince"] None
              eq_refl) as (tempDir & fName & H1 & H2 & _).
  - vm_compute. left.
  - exists tempDir, fName. split; [exact H1 | exact H2].
Defined.



(** The same on a disk: the write of the zip is refused, the runtime makes
    the rejection fatal, and the temporary directory stays. *)
Example refused_write_leaves_directory :
  let refused := fun X (c : call X) =>
    match c with
    | fs_writeFile _ _ => Some (World.errno "EACCES")
    | _ => None
    end in
  let r := run World.answer (unpack Sample.mac Sample.vendor_zip)
             (World.Make Sample.fresh [] refused Sample.silent "AbCdEf") in
  fst r = inl (Uncaught (World.errno "EACCES"))
  /\ World.exists_at (World.files (snd r)) ["pkg"; "tmp-AbCdEf"] = true.
Proof. vm_compute. split; reflexivity. Qed.

(** X14. On macOS, an archive that leaves the temporary directory empty
    makes the unpacking throw "No files found in the temp directory" with
    the path of the directory, and one that leaves a single file makes it
    throw "Found one file in the temp directory. Expected a directory"; in
    both cases nothing is moved (the write of the archive not ending the
    process, and the unzipping, the removal of the archive and the removal
    of the directory succeeding). *)
Theorem darwin_layout_errors (answers : forall X, call X -> X) (P : process)
    (data : payload) (tempDir : path) :
  platform P = "darwin" ->
  answers _ (fs_mkdtemp (path_join (dirname P) ["tmp-"])) = inr tempDir ->
  write_passes answers (path_join tempDir ["prince.zip"]) data = true ->
  answers _ (unzip_Extract (path_join tempDir ["prince.zip"]) tempDir) = None ->
  answers _ (fs_unlinkSync (path_join tempDir ["prince.zip"])) = None ->
  answers _ (fs_rmdir (Some tempDir)) = None ->
  (answers _ (fs_readdir tempDir) = inr [] ->
   eval answers (unpack P data)
   = inl (Thrown (Err "Error" ("No files found in the temp directory: "
                                 ++ show_path tempDir)))
   /\ renames (trace answers (unpack P data)) = [])
  /\ (forall fName,
        answers _ (fs_readdir tempDir) = inr [fName] ->
        answers _ (fs_stat (path_join tempDir [fName])) = inr false ->
        eval answers (unpack P data)
        = inl (Thrown
                 (Err "Error"
                    "Found one file in the temp directory. Expected a directory"))
        /\ renames (trace answers (unpack P data)) = []).
Proof.
  intros HP H1 Hw H2 H3 H4.
  destruct (unpack_darwin_case answers P data HP) as [-> ->].
  change (renames (?e :: ?t)) with (renames ([e] ++ t)%list).
  rewrite renames_app. cbn [app].
  exact (darwin_layout answers P data tempDir H1 Hw H2 H3 H4).
Qed.

Lemma darwin_layout_errors_witness :
  eval (Sample.staged []) (unpack Sample.mac Sample.vendor_zip)
  = inl (Thrown
           (Err "Error" "No files found in the temp directory: pkg/tmp-AbCdEf")).
Proof.
  apply (proj1 (darwin_layout_errors (Sample.staged []) Sample.mac
                  Sample.vendor_zip ["pkg"; "tmp-AbCdEf"]
                  eq_refl eq_refl eq_refl eq_refl eq_refl eq_refl)).
  reflexivity.
Defined.

(** ** Where the unpacking goes on the disk *)

Lemma named_cons {X : Type} (c : call X) (x : X) (t : list event) :
  named (Event c x :: t) = (names X c ++ named t)%list.
Proof. reflexivity. Qed.

Section Confined.
Variable answers : forall X, call X -> X.
Variable P : process.
Variable data : payload.

Lemma linux_names (p : path) :
  p ∈ named (trace answers (unpack_linux P data)) ->
  p = path_join (dirname P) ["prince.tgz"] \/ p = destdir P.
Proof.
  all_paths answers.
  all: rewrite ?named_cons; cbn [names app named calls_of omap list_omap mjoin
                                 list_join].
  all: intros H;
    repeat (apply elem_of_cons in H as [H | H]);
    try (apply elem_of_nil in H as []); auto.
Qed.

Lemma darwin_names (p : path) :
  p ∈ named (trace answers (unpack_darwin P data)) ->
  p = path_join (dirname P) ["tmp-"]
  \/ destdir P `prefix_of` p
  \/ exists tempDir,
       answers _ (fs_mkdtemp (path_join (dirname P) ["tmp-"])) = inr tempDir
       /\ tempDir `prefix_of` p.
Proof.
  all_paths answers.
  all: rewrite ?named_cons;
    cbn [names app named calls_of omap list_omap mjoin list_join option_list].
  all: intros H;
    repeat (apply elem_of_cons in H as [H | H]);
    try (apply elem_of_nil in H as []); subst p.
  all: first
    [ left; reflexivity
    | right; left; unfold path_join, destdir;
      first [reflexivity | apply prefix_app_r; reflexivity
            | rewrite <- app_assoc; apply prefix_app_r; reflexivity]
    | right; right; eexists; split; [reflexivity |]; unfold path_join;
      first [reflexivity | apply prefix_app_r; reflexivity] ].
Qed.
End Confined.

(** X15. The unpacking names few places on the disk.  On Linux they are
    [prince.tgz] and the directory [prince], both next to the script.  On
    macOS they are the prefix given to [mkdtemp], the temporary directory
    that came back and what is below it, and the directory [prince] and
    what is below it. *)
Theorem unpacking_is_confined (answers : forall X, call X -> X) (P : process)
    (data : payload) (p : path) :
  p ∈ named (trace answers (unpack P data)) ->
  (platform P = "linux" ->
   p = path_join (dirname P) ["prince.tgz"] \/ p = destdir P)
  /\ (platform P = "darwin" ->
      p = path_join (dirname P) ["tmp-"]
      \/ destdir P `prefix_of` p
      \/ exists tempDir,
           answers _ (fs_mkdtemp (path_join (dirname P) ["tmp-"]))
           = inr tempDir
           /\ tempDir `prefix_of` p).
Proof.
  intros Hp. split; intros HP.
  - destruct (unpack_on_linux answers P data HP) as [_ E].
    rewrite E, named_cons in Hp. apply linux_names with (answers := answers)
      (data := data). exact Hp.
  - destruct (unpack_darwin_case answers P data HP) as [_ E].
    rewrite E, named_cons in Hp. apply darwin_names with (data := data).
    exact Hp.
Qed.

Lemma unpacking_is_confined_witness :
  ["pkg"; "prince"] = path_join (dirname Sample.linux_box) ["prince.tgz"]
  \/ ["pkg"; "prince"] = destdir Sample.linux_box.
Proof.
  apply (proj1 (unpacking_is_confined
                  (Sample.host "amd64-ubuntu20.04" Sample.vendor_tgz)
                  Sample.linux_box Sample.vendor_tgz ["pkg"; "prince"]
                  ltac:(vm_compute; right; left))
           eq_refl).
Defined.

(** ** uninstall and the main procedure *)

(** X16. [uninstall] looks at one place, the directory [prince] next to the
    script, and removes nothing else: it asks for the removal when the
    directory exists and not otherwise, and it runs no command and makes no
    request. *)
Theorem uninstall_is_confined (answers : forall X, call X -> X) (P : process) :
  let t := trace answers (uninstall P) in
  rimrafs t = (if answers _ (fs_existsSync (destdir P)) then [destdir P] else [])
  /\ Forall (fun p => p = destdir P) (named t)
  /\ execs t = [] /\ execFiles t = [] /\ requests t = []
  /\ eval answers (uninstall P) = None.
Proof.
  intros t. subst t. unfold uninstall. cbn [bind do eval trace].
  destruct (answers _ (fs_existsSync (destdir P)));
    cbn [bind do eval trace];
    [destruct (answers _ (rimraf (destdir P))); cbn [bind do eval trace] |].
  all: repeat split.
  all: rewrite ?named_cons;
    cbn [names app named calls_of omap list_omap mjoin list_join];
    repeat constructor.
Qed.

(** X17. The main procedure exits with status 1 after a single line on the
    console, and nothing else, when it is not given exactly one argument
    or the argument is neither [install] nor [uninstall]; with [install]
    or [uninstall] as the one argument it is that procedure and no
    more. *)
Theorem main_dispatch (answers : forall X, call X -> X) (P : process) :
  (List.length (argv P) <> 3 ->
   eval answers (main P) = Exit 1
   /\ logs (trace answers (main P)) = ["ERROR: invalid number of arguments"]
   /\ List.length (trace answers (main P)) = 1)
  /\ (forall node script,
        argv P = [node; script; "install"] ->
        eval answers (main P) = Ran (eval answers (install P))
        /\ trace answers (main P) = trace answers (install P))
  /\ (forall node script,
        argv P = [node; script; "uninstall"] ->
        eval answers (main P) = Ran (eval answers (uninstall P))
        /\ trace answers (main P) = trace answers (uninstall P))
  /\ (forall node script word,
        argv P = [node; script; word] ->
        word <> "install" -> word <> "uninstall" ->
        eval answers (main P) = Exit 1
        /\ logs (trace answers (main P)) = ["ERROR: invalid argument"]
        /\ List.length (trace answers (main P)) = 1).
Proof.
  unfold main. split; [| split; [| split]].
  - intros H. apply Nat.eqb_neq in H. rewrite H. repeat split.
  - intros node script H. rewrite H. cbn [List.length Nat.eqb negb].
    rewrite bool_decide_eq_true_2 by reflexivity.
    rewrite eval_bind, trace_bind. cbn [trace]. split; [reflexivity |].
    apply app_nil_r.
  - intros node script H. rewrite H. cbn [List.length Nat.eqb negb].
    rewrite bool_decide_eq_false_2 by (cbn; congruence).
    rewrite bool_decide_eq_true_2 by reflexivity.
    rewrite eval_bind, trace_bind. cbn [trace]. split; [reflexivity |].
    apply app_nil_r.
  - intros node script word H Hi Hu. rewrite H.
    cbn [List.length Nat.eqb negb].
    rewrite !bool_decide_eq_false_2 by (cbn; congruence).
    repeat split.
Qed.

Lemma main_dispatch_witness :
  eval Sample.silent
    (main (Process "linux" "x64" None ["node"; "prince-npm.js"] Sample.here))
  = Exit 1.
Proof.
  apply (proj1 (main_dispatch Sample.silent
                  (Process "linux" "x64" None ["node"; "prince-npm.js"]
                     Sample.here))).
  cbn. lia.
Defined.

(** ** The line that npm prints *)

Lemma take_all s : Js.take (String.length s) s = s.
Proof.
  induction s as [| c s IH]; [reflexivity |].
  cbn [String.length Js.take]. rewrite IH. reflexivity.
Qed.

Lemma drop_all s n : Js.drop (String.length s + n) s = EmptyString.
Proof.
  induction s as [| c s IH]; [destruct n; reflexivity |]. cbn. exact IH.
Qed.

Lemma append_empty s : s ++ EmptyString = s.
Proof.
  induction s as [| c s IH]; [reflexivity |].
  change (String c (s ++ EmptyString) = String c s). rewrite IH. reflexivity.
Qed.

Lemma append_cons c s t : String c s ++ t = String c (s ++ t).
Proof. reflexivity. Qed.

Lemma append_nil t : EmptyString ++ t = t.
Proof. reflexivity. Qed.

(** The pattern of the line end matches where a line end ends the input. *)
Lemma eol_matcher (i : nat) (s : string) (caps : list (nat * string)) :
  matcher false re_eol (MState i s caps) Some
  = if is_eol s then Some (MState (String.length s + i) EmptyString caps)
    else None.
Proof.
  unfold re_eol. cbn [seq matcher].
  destruct s as [| a s]; [reflexivity |].
  rewrite matcher_Opt_cons.
  cbn [matcher step_char rest idx RegExp.caps chr_matches].
  destruct (Ascii.eqb_spec "013" a) as [<- | Ha].
  - replace (Nat.eqb (S i) i) with false
      by (symmetry; apply Nat.eqb_neq; lia).
    rewrite rounds_exhausted.
    destruct s as [| b s]; [reflexivity |].
    cbn [matcher step_char rest idx RegExp.caps chr_matches is_eol].
    destruct (Ascii.eqb_spec "010" b) as [<- | Hb]; destruct s; reflexivity.
  - cbn [is_eol].
    destruct (Ascii.eqb_spec "010" a) as [<- | Hb].
    + destruct s as [| b s]; [reflexivity |].
      destruct s; reflexivity.
    + destruct s as [| b [| c s]]; try reflexivity.
      destruct (Ascii.eqb_spec "013" a); [congruence | reflexivity].
Qed.

Lemma eol_search (s : string) :
  forall i,
    (exists m, exec_from false re_eol i s = Some m
               /\ Js.take (index m - i) s = chomp s
               /\ i <= index m
               /\ String.length s + i = index m + String.length (matched m))
    \/ (exec_from false re_eol i s = None /\ chomp s = s).
Proof.
  induction s as [| c s IH]; intros i.
  - right. split; reflexivity.
  - cbn [exec_from]. rewrite eol_matcher.
    destruct (is_eol (String c s)) eqn:E.
    + left. eexists. split; [reflexivity |]. cbn [index matched idx].
      replace (String.length (String c s) + i - i)
        with (String.length (String c s)) by lia.
      rewrite take_all. cbn [chomp]. rewrite E.
      replace (i - i) with 0 by lia. repeat split; lia.
    + destruct (IH (S i)) as [(m & Hm & Ht & Hi & Hl) | [Hn Hc]].
      * left. exists m. split; [exact Hm |].
        cbn [chomp]. rewrite E.
        replace (index m - i) with (S (index m - S i)) by lia.
        cbn [Js.take]. rewrite Ht. cbn [String.length].
        repeat split; lia.
      * right. split; [exact Hn |]. cbn [chomp]. rewrite E, Hc. reflexivity.
Qed.

(** Taking the line end off is what the replacement does. *)
Lemma replace_eol (s : string) :
  replace false re_eol EmptyString s = chomp s.
Proof.
  unfold replace, exec.
  destruct (eol_search s 0) as [(m & Hm & Ht & _ & Hl) | [Hn Hc]].
  - rewrite Hm. rewrite Nat.sub_0_r in Ht. rewrite Ht.
    rewrite Nat.add_0_r in Hl. rewrite <- Hl.
    replace (String.length s) with (String.length s + 0) by lia.
    rewrite drop_all, append_nil. apply append_empty.
  - rewrite Hn, Hc. reflexivity.
Qed.

Lemma chomp_one_line (s : string) :
  one_line s = true ->
  chomp s = s
  /\ chomp (s ++ String "010" EmptyString) = s
  /\ chomp (s ++ String "013" (String "010" EmptyString)) = s.
Proof.
  unfold one_line. induction s as [| c s IH]; [repeat split |].
  cbn [occurs]. rewrite !negb_orb, !andb_true_iff, !negb_true_iff.
  intros [[Hlf Hs1] [Hcr Hs2]].
  destruct IH as (IH1 & IH2 & IH3).
  { rewrite Hs1, Hs2. reflexivity. }
  rewrite !append_cons. cbn [chomp].
  assert (E1 : is_eol (String c s) = false).
  { destruct s as [| b [| b' s]]; cbn [is_eol]; try reflexivity.
    - exact Hlf.
    - rewrite Hcr. reflexivity. }
  assert (E2 : is_eol (String c (s ++ String "010" EmptyString)) = false).
  { destruct s as [| b [| b' s]];
      rewrite ?append_cons, ?append_nil; cbn [is_eol]; try reflexivity.
    rewrite Hcr. reflexivity. }
  assert (E3 : is_eol (String c (s ++ String "013" (String "010" EmptyString)))
               = false).
  { destruct s as [| b [| b' s]];
      rewrite ?append_cons, ?append_nil; reflexivity. }
  rewrite E1, E2, E3, IH1, IH2, IH3. repeat split.
Qed.

(** X18. Of what [npm config get proxy] prints, the final line end, LF or
    CR LF, is taken off and nothing else.  So when the environment names no
    proxy and npm prints an http(s) URL on one line, with or without a line
    end, the proxy is that URL. *)
Theorem npm_line_is_the_proxy (answers : forall X, call X -> X) (P : process) :
  (forall s, replace false re_eol EmptyString s = chomp s)
  /\ (forall url eol,
        http_proxy P = None \/ http_proxy P = Some EmptyString ->
        answers _ (child_process_exec "npm config get proxy")
        = (None, url ++ eol) ->
        one_line url = true -> is_http_url url = true ->
        eol = EmptyString \/ eol = String "010" EmptyString
        \/ eol = String "013" (String "010" EmptyString) ->
        eval answers (options_proxy P) = Some url).
Proof.
  split; [exact replace_eol |].
  intros url eol Henv Hnpm Hline Hurl Heol.
  destruct (options_proxy_npm answers P Henv) as [_ ->].
  rewrite Hnpm. cbn [fst snd]. rewrite replace_eol.
  destruct (chomp_one_line url Hline) as (H1 & H2 & H3).
  assert (E : chomp (url ++ eol) = url).
  { destruct Heol as [-> | [-> | ->]]; [rewrite append_empty | |]; assumption. }
  rewrite E, Hurl. reflexivity.
Qed.

Lemma npm_line_is_the_proxy_witness :
  eval Sample.both_proxies (options_proxy Sample.linux_box)
  = Some "http://npm.example:3128".
Proof.
  apply (proj2 (npm_line_is_the_proxy Sample.both_proxies Sample.linux_box)
           "http://npm.example:3128" Sample.newline (or_introl eq_refl)
           eq_refl eq_refl eq_refl (or_intror (or_introl eq_refl))).
Defined.

(** ** The probe for an installed prince *)

(** The banner begins with the word Prince. *)
Lemma banner_needs_Prince (s : string) :
  after "Prince" s = None -> exec false re_banner s = None.
Proof.
  intros H.
  assert (Hm : matcher false re_banner (MState 0 s []) Some = None).
  { unfold re_banner. cbv [lit seq list_ascii_of_string map].
    cbn [matcher Nat.eqb idx].
    repeat (destruct s as [| ? s]; [reflexivity |];
            cbn [step_char rest idx caps chr_matches after] in *;
            match goal with
            | |- context [Ascii.eqb ?p ?a] => destruct (Ascii.eqb_spec p a)
            end; [| reflexivity]).
    cbn [after] in H. discriminate H. }
  unfold exec. destruct s as [| a s]; cbn [exec_from]; rewrite Hm;
    [reflexivity | apply exec_from_Bol].
Qed.

(** X19. The promise of [princeInfo] is settled on every path.  When
    [which] finds no [prince] no program is run; when it finds one, that
    program is run once, with the argument [--version] alone, and the
    promise is fulfilled only if the run had no error and its output
    begins with the word Prince, and then with the path that [which]
    gave. *)
Theorem princeInfo_settles (answers : forall X, call X -> X) :
  eval answers princeInfo <> Pending
  /\ (forall e, answers _ (which "prince") = inl e ->
      eval answers princeInfo
      = Rejected (Str ("prince(1) not found in PATH: " ++ show_error e))
      /\ execFiles (trace answers princeInfo) = [])
  /\ (forall filename, answers _ (which "prince") = inr filename ->
      let out := answers _ (child_process_execFile filename ["--version"]) in
      execFiles (trace answers princeInfo) = [(filename, ["--version"])]
      /\ (forall info, eval answers princeInfo = Fulfilled info ->
          command info = filename
          /\ fst (fst out) = None
          /\ after "Prince" (snd (fst out)) <> None)).
Proof.
  unfold princeInfo. cbn [bind do eval trace].
  destruct (answers _ (which "prince")) as [e | filename].
  - split; [discriminate |].
    split; [intros ? [= <-]; split; reflexivity | intros ? [=]].
  - cbn [bind do eval trace].
    split; [| split; [intros ? [=] | intros f [= <-]]].
    + destruct (answers _ _) as [[[e |] stdout] stderr]; [discriminate |].
      destruct (exec false re_banner stdout ≫= group 1); discriminate.
    + destruct (answers _ _) as [[[e |] stdout] stderr]; cbn [fst snd].
      * split; [reflexivity | intros info [=]].
      * destruct (exec false re_banner stdout ≫= group 1) as [v |] eqn:Hv;
          (split; [reflexivity |]); [intros info [= <-] | intros info [=]].
        repeat split. intros Hno.
        rewrite (banner_needs_Prince _ Hno) in Hv. discriminate Hv.
Qed.

Lemma princeInfo_settles_witness :
  execFiles (trace Scene.with_prince princeInfo)
  = [("/usr/bin/prince", ["--version"])]
  /\ command (PrinceInfo "/usr/bin/prince" "14.2") = "/usr/bin/prince"
  /\ eval Sample.silent princeInfo
     = Rejected (Str ("prince(1) not found in PATH: "
                      ++ show_error (World.errno "not found: prince"))).
Proof.
  destruct (princeInfo_settles Scene.with_prince) as (_ & _ & Hfound).
  destruct (Hfound "/usr/bin/prince" eq_refl) as [Hrun Hinfo].
  destruct (Hinfo (PrinceInfo "/usr/bin/prince" "14.2") eq_refl) as (Hc & _).
  split; [exact Hrun | split; [exact Hc |]].
  destruct (princeInfo_settles Sample.silent) as (_ & Hnone & _).
  exact (proj1 (Hnone _ eq_refl)).
Defined.
